(** * Pomodoro timer: the countdown state machine of [PomodoroTimer]

    A shallow embedding of the [PomodoroTimer] class of the extension
    (start / stop / reset / tick / onTimerEnd / updateStatusBar) together
    with the small part of the host it talks to: the interval timers of the
    event loop, the configuration store, the status bar item, the webview
    panel and the notifications.

    Numbers.  The timer only ever holds integers (minutes times 60, whole
    elapsed seconds, millisecond clock readings), so JavaScript numbers are
    modelled as [Z]; the configured durations are integers as well.
    [Math.floor (a / b)] with a positive constant divisor is [Z.div], the
    remainder operator [%] is the truncating [Z.rem], and a zero divisor
    yields NaN, which is kept explicit.  The arithmetic is that of the
    program on the safe integers, up to 2^53 - 1 in size; [JS.ToString]
    follows [String] beyond them, where it prints fewer digits and, from
    1e21 on, the exponent notation. *)

From Stdlib Require Import ZArith List String Ascii Bool Lia.
From Stdlib Require Import Decimal DecimalString DecimalZ.
Import ListNotations.

Local Open Scope Z_scope.

(** ** The JavaScript operations the class relies on *)

Module JS.

(** A number that may be NaN. *)
Inductive number : Type :=
| Num (z : Z)
| NaN.

(** [a % b]: the sign follows the dividend; [a % 0] is NaN. *)
Definition rem (a b : Z) : number :=
  if b =? 0 then NaN else Num (Z.rem a b).

(** [x === z] for a numeric literal [z]: NaN equals nothing. *)
Definition strict_eq (x : number) (z : Z) : bool :=
  match x with
  | Num y => y =? z
  | NaN => false
  end.

(** [Math.floor (a / b)] for integers with [b] positive. *)
Definition floor_div (a b : Z) : Z := a / b.

(** [String (z)] for a safe integer, [|z| < 2^53]: all its decimal digits,
    with a leading minus sign for negative numbers.  Beyond the safe
    integers [String] prints fewer digits, see [ToString]. *)
Definition String_ (z : Z) : string :=
  NilZero.string_of_int (Z.to_int z).

(** The first [n] characters of [pad] repeated for ever, starting at the
    position [cur] inside [pad]. *)
Fixpoint fill (pad cur : string) (n : nat) : string :=
  match n with
  | O => EmptyString
  | S n' =>
      match cur with
      | String c rest => String c (fill pad rest n')
      | EmptyString =>
          match pad with
          | String c rest => String c (fill pad rest n')
          | EmptyString => EmptyString
          end
      end
  end.

(** [s.padStart (target, pad)]: a string that is long enough already is
    returned as it is, never truncated. *)
Definition padStart (target : nat) (pad s : string) : string :=
  if (target <=? String.length s)%nat then s
  else (fill pad pad (target - String.length s) ++ s)%string.

(** [s] without its first [n] characters. *)
Fixpoint skip (n : nat) (s : string) : string :=
  match n, s with
  | O, _ => s
  | S n', String _ rest => skip n' rest
  | S _, EmptyString => EmptyString
  end.

(** [s.replace (pat, rep)] for a string pattern [pat] and a replacement
    without dollar signs: the first occurrence of [pat], when there is one,
    gives way to [rep]. *)
Fixpoint replace (pat rep s : string) : string :=
  if String.prefix pat s then (rep ++ skip (String.length pat) s)%string
  else match s with
       | EmptyString => EmptyString
       | String c rest => String c (replace pat rep rest)
       end.

(** [s.includes (pat)]. *)
Fixpoint includes (pat s : string) : bool :=
  String.prefix pat s ||
  match s with
  | EmptyString => false
  | String _ rest => includes pat rest
  end.

(** The Number value nearest to a positive integer: 53 significant bits,
    ties to the even one. *)
Definition round53 (x : Z) : Z :=
  let e := Z.log2 x - 52 in
  if e <=? 0 then x
  else
    let q := x / 2 ^ e in
    let r := x mod 2 ^ e in
    let half := 2 ^ (e - 1) in
    let q' := if r <? half then q
              else if half <? r then q + 1
              else if Z.even q then q else q + 1 in
    q' * 2 ^ e.

(** The integer with the fewest significant digits, [k] or more, that
    still denotes the Number value [v] of [n] digits; of two with as few
    digits, the nearer to [v]. *)
Fixpoint shortest (fuel : nat) (k n v : Z) : Z :=
  match fuel with
  | O => v
  | S fuel' =>
      if n <=? k then v
      else
        let p := 10 ^ (n - k) in
        let lo := v / p * p in
        let hi := lo + p in
        let lo_ok := round53 lo =? v in
        let hi_ok := round53 hi =? v in
        if lo_ok && hi_ok then (if v - lo <=? hi - v then lo else hi)
        else if lo_ok then lo
        else if hi_ok then hi
        else shortest fuel' (k + 1) n v
  end.

(** A numeral without its trailing zeros. *)
Fixpoint strip_zeros (s : string) : string :=
  match s with
  | EmptyString => EmptyString
  | String c rest =>
      match strip_zeros rest with
      | EmptyString =>
          if Ascii.eqb c "0" then EmptyString else String c EmptyString
      | rest' => String c rest'
      end
  end.

(** [String (v)] for a positive integer Number value [v] of 2^53 or more:
    the digits that identify [v] and zeros up to 21 digits, the exponent
    notation beyond. *)
Definition String_large (v : Z) : string :=
  let n := Z.of_nat (String.length (String_ v)) in
  let c := shortest 17 1 n v in
  let nc := Z.of_nat (String.length (String_ c)) in
  if nc <=? 21 then String_ c
  else
    match strip_zeros (String_ c) with
    | EmptyString => EmptyString
    | String d EmptyString =>
        (String d EmptyString ++ "e+" ++ String_ (nc - 1))%string
    | String d rest =>
        (String d EmptyString ++ "." ++ rest ++ "e+" ++ String_ (nc - 1))%string
    end.

(** [String (z)] for every integer Number value: [String_] on the safe
    integers, where all digits are printed. *)
Definition ToString (z : Z) : string :=
  if Z.abs z <? 2 ^ 53 then String_ z
  else if z <? 0 then (String "-" (String_large (- z)))%string
  else String_large z.

End JS.

(** ** The configuration store

    [vscode.workspace.getConfiguration ('pomodoroTimer')]: every key may be
    missing, and [config.get (key, default)] then answers the default. *)

Record WorkspaceConfiguration : Type := {
  cfg_workDuration : option Z;
  cfg_breakDuration : option Z;
  cfg_longBreakDuration : option Z;
  cfg_sessionsBeforeLongBreak : option Z;
  cfg_soundEnabled : option bool;
  cfg_notificationEnabled : option bool
}.

Definition get {A : Type} (stored : option A) (default : A) : A :=
  match stored with
  | Some v => v
  | None => default
  end.

(** ** Host objects *)

(** The handle [setInterval] returns.  In the extension host it is an
    object, hence always truthy. *)
Definition Handle : Type := nat.

Inductive HostEvent : Type :=
| Beep
| InformationMessage (text : string).

Record StatusBarItem : Type := {
  text : string;
  tooltip : string
}.

(** The [state] object of an [update] message posted to the panel. *)
Record PanelState : Type := {
  ps_isRunning : bool;
  ps_isWorkSession : bool;
  ps_timeLeft : Z;
  ps_sessionsCompleted : Z;
  ps_workDuration : Z;
  ps_breakDuration : Z;
  ps_longBreakDuration : Z;
  ps_sessionsBeforeLongBreak : Z;
  ps_soundEnabled : bool;
  ps_notificationEnabled : bool
}.

Record WebviewPanel : Type := {
  visible : bool;
  posted : list PanelState
}.

(** ** The timer object and the host state it reaches

    The fields of [this], followed by what lives in the host: the interval
    timers that are still active, the next handle to hand out, and the
    notifications produced so far (oldest first). *)

Record PomodoroTimer : Type := {
  timeLeft : Z;
  isRunning : bool;
  isWorkSession : bool;
  sessionsCompleted : Z;
  timer : option Handle;
  statusBar : StatusBarItem;
  panel : option WebviewPanel;
  lastUpdateTime : Z;
  intervals : list Handle;
  nextHandle : Handle;
  trace : list HostEvent
}.

Definition set_timeLeft (v : Z) (s : PomodoroTimer) : PomodoroTimer :=
  {| timeLeft := v; isRunning := isRunning s; isWorkSession := isWorkSession s;
     sessionsCompleted := sessionsCompleted s; timer := timer s;
     statusBar := statusBar s; panel := panel s;
     lastUpdateTime := lastUpdateTime s; intervals := intervals s;
     nextHandle := nextHandle s; trace := trace s |}.

Definition set_isRunning (v : bool) (s : PomodoroTimer) : PomodoroTimer :=
  {| timeLeft := timeLeft s; isRunning := v; isWorkSession := isWorkSession s;
     sessionsCompleted := sessionsCompleted s; timer := timer s;
     statusBar := statusBar s; panel := panel s;
     lastUpdateTime := lastUpdateTime s; intervals := intervals s;
     nextHandle := nextHandle s; trace := trace s |}.

Definition set_isWorkSession (v : bool) (s : PomodoroTimer) : PomodoroTimer :=
  {| timeLeft := timeLeft s; isRunning := isRunning s; isWorkSession := v;
     sessionsCompleted := sessionsCompleted s; timer := timer s;
     statusBar := statusBar s; panel := panel s;
     lastUpdateTime := lastUpdateTime s; intervals := intervals s;
     nextHandle := nextHandle s; trace := trace s |}.

Definition set_sessionsCompleted (v : Z) (s : PomodoroTimer) : PomodoroTimer :=
  {| timeLeft := timeLeft s; isRunning := isRunning s;
     isWorkSession := isWorkSession s; sessionsCompleted := v; timer := timer s;
     statusBar := statusBar s; panel := panel s;
     lastUpdateTime := lastUpdateTime s; intervals := intervals s;
     nextHandle := nextHandle s; trace := trace s |}.

Definition set_timer (v : option Handle) (s : PomodoroTimer) : PomodoroTimer :=
  {| timeLeft := timeLeft s; isRunning := isRunning s;
     isWorkSession := isWorkSession s;
     sessionsCompleted := sessionsCompleted s; timer := v;
     statusBar := statusBar s; panel := panel s;
     lastUpdateTime := lastUpdateTime s; intervals := intervals s;
     nextHandle := nextHandle s; trace := trace s |}.

Definition set_statusBar (v : StatusBarItem) (s : PomodoroTimer) : PomodoroTimer :=
  {| timeLeft := timeLeft s; isRunning := isRunning s;
     isWorkSession := isWorkSession s;
     sessionsCompleted := sessionsCompleted s; timer := timer s;
     statusBar := v; panel := panel s;
     lastUpdateTime := lastUpdateTime s; intervals := intervals s;
     nextHandle := nextHandle s; trace := trace s |}.

Definition set_panel (v : option WebviewPanel) (s : PomodoroTimer) : PomodoroTimer :=
  {| timeLeft := timeLeft s; isRunning := isRunning s;
     isWorkSession := isWorkSession s;
     sessionsCompleted := sessionsCompleted s; timer := timer s;
     statusBar := statusBar s; panel := v;
     lastUpdateTime := lastUpdateTime s; intervals := intervals s;
     nextHandle := nextHandle s; trace := trace s |}.

Definition set_lastUpdateTime (v : Z) (s : PomodoroTimer) : PomodoroTimer :=
  {| timeLeft := timeLeft s; isRunning := isRunning s;
     isWorkSession := isWorkSession s;
     sessionsCompleted := sessionsCompleted s; timer := timer s;
     statusBar := statusBar s; panel := panel s;
     lastUpdateTime := v; intervals := intervals s;
     nextHandle := nextHandle s; trace := trace s |}.

Definition set_intervals (v : list Handle) (s : PomodoroTimer) : PomodoroTimer :=
  {| timeLeft := timeLeft s; isRunning := isRunning s;
     isWorkSession := isWorkSession s;
     sessionsCompleted := sessionsCompleted s; timer := timer s;
     statusBar := statusBar s; panel := panel s;
     lastUpdateTime := lastUpdateTime s; intervals := v;
     nextHandle := nextHandle s; trace := trace s |}.

Definition set_nextHandle (v : Handle) (s : PomodoroTimer) : PomodoroTimer :=
  {| timeLeft := timeLeft s; isRunning := isRunning s;
     isWorkSession := isWorkSession s;
     sessionsCompleted := sessionsCompleted s; timer := timer s;
     statusBar := statusBar s; panel := panel s;
     lastUpdateTime := lastUpdateTime s; intervals := intervals s;
     nextHandle := v; trace := trace s |}.

Definition emit (e : HostEvent) (s : PomodoroTimer) : PomodoroTimer :=
  {| timeLeft := timeLeft s; isRunning := isRunning s;
     isWorkSession := isWorkSession s;
     sessionsCompleted := sessionsCompleted s; timer := timer s;
     statusBar := statusBar s; panel := panel s;
     lastUpdateTime := lastUpdateTime s; intervals := intervals s;
     nextHandle := nextHandle s; trace := trace s ++ [e] |}.

(** ** Interval timers of the event loop *)

(** [setInterval (callback, 100)]: a fresh handle becomes active. *)
Definition setInterval (s : PomodoroTimer) : Handle * PomodoroTimer :=
  let h := nextHandle s in
  (h, set_nextHandle (S h) (set_intervals (intervals s ++ [h]) s)).

(** [clearInterval (h)]: the handle is no longer active. *)
Definition clearInterval (h : Handle) (s : PomodoroTimer) : PomodoroTimer :=
  set_intervals (remove Nat.eq_dec h (intervals s)) s.

(** ** Methods of [PomodoroTimer] *)

Local Open Scope string_scope.
Local Open Scope Z_scope.

(** The [timeStr] constant of [updateStatusBar]. *)
Definition timeStr (t : Z) : string :=
  let minutes := JS.floor_div t 60 in
  let seconds := Z.rem t 60 in
  JS.padStart 2 "0" (JS.ToString minutes) ++ ":" ++
  JS.padStart 2 "0" (JS.ToString seconds).

Definition updateStatusBar (s : PomodoroTimer) : PomodoroTimer :=
  let icon := if isWorkSession s then "🍅" else "☕" in
  let status := if isRunning s then "●" else "○" in
  let sessionType := if isWorkSession s then "Work" else "Break" in
  set_statusBar
    {| text := icon ++ " " ++ sessionType ++ " " ++ timeStr (timeLeft s)
               ++ " " ++ status;
       tooltip := "Sessions completed: " ++ JS.String_ (sessionsCompleted s) |}
    s.

Definition panelState (config : WorkspaceConfiguration) (s : PomodoroTimer)
  : PanelState :=
  {| ps_isRunning := isRunning s;
     ps_isWorkSession := isWorkSession s;
     ps_timeLeft := timeLeft s;
     ps_sessionsCompleted := sessionsCompleted s;
     ps_workDuration := get (cfg_workDuration config) 25;
     ps_breakDuration := get (cfg_breakDuration config) 5;
     ps_longBreakDuration := get (cfg_longBreakDuration config) 15;
     ps_sessionsBeforeLongBreak := get (cfg_sessionsBeforeLongBreak config) 4;
     ps_soundEnabled := get (cfg_soundEnabled config) true;
     ps_notificationEnabled := get (cfg_notificationEnabled config) true |}.

Definition broadcastUpdate (config : WorkspaceConfiguration) (s : PomodoroTimer)
  : PomodoroTimer :=
  match panel s with
  | Some p =>
      if visible p then
        set_panel
          (Some {| visible := visible p;
                   posted := (posted p ++ [panelState config s])%list |}) s
      else s
  | None => s
  end.

(** The interval length [start] picks when the countdown is at zero. *)
Definition nextInterval (config : WorkspaceConfiguration) (s : PomodoroTimer)
  : Z :=
  let workDuration := get (cfg_workDuration config) 25 in
  let breakDuration := get (cfg_breakDuration config) 5 in
  let longBreakDuration := get (cfg_longBreakDuration config) 15 in
  let sessionsBeforeLongBreak := get (cfg_sessionsBeforeLongBreak config) 4 in
  let isLongBreak :=
    negb (isWorkSession s) &&
    (0 <? sessionsCompleted s) &&
    JS.strict_eq (JS.rem (sessionsCompleted s) sessionsBeforeLongBreak) 0 in
  if isWorkSession s then workDuration * 60
  else if isLongBreak then longBreakDuration * 60 else breakDuration * 60.

Definition start (config : WorkspaceConfiguration) (now : Z)
  (s : PomodoroTimer) : PomodoroTimer :=
  if isRunning s then s
  else
    let s := if timeLeft s =? 0
             then set_timeLeft (nextInterval config s) s else s in
    let s := set_isRunning true s in
    let s := set_lastUpdateTime now s in
    let '(h, s) := setInterval s in
    let s := set_timer (Some h) s in
    let s := updateStatusBar s in
    broadcastUpdate config s.

Definition stop (config : WorkspaceConfiguration) (s : PomodoroTimer)
  : PomodoroTimer :=
  let s := match timer s with
           | Some h => clearInterval h s
           | None => s
           end in
  let s := set_timer None s in
  let s := set_isRunning false s in
  let s := updateStatusBar s in
  broadcastUpdate config s.

Definition reset (config : WorkspaceConfiguration) (s : PomodoroTimer)
  : PomodoroTimer :=
  let s := stop config s in
  let s := set_timeLeft 0 s in
  let s := set_isWorkSession true s in
  let s := set_sessionsCompleted 0 s in
  let s := updateStatusBar s in
  broadcastUpdate config s.

(** [beep] swallows every failure of the audio context; what remains
    visible is that a sound was asked for. *)
Definition beep (s : PomodoroTimer) : PomodoroTimer := emit Beep s.

Definition playNotification (message : string)
  (config : WorkspaceConfiguration) (s : PomodoroTimer) : PomodoroTimer :=
  let s := if get (cfg_soundEnabled config) true then beep s else s in
  if get (cfg_notificationEnabled config) true
  then emit (InformationMessage ("🍅 " ++ message)) s
  else s.

Definition onTimerEnd (config : WorkspaceConfiguration) (s : PomodoroTimer)
  : PomodoroTimer :=
  let s := stop config s in
  let s :=
    if isWorkSession s then
      let s := set_sessionsCompleted (sessionsCompleted s + 1) s in
      let s := playNotification "Work session completed!" config s in
      let s := set_isWorkSession false s in
      set_timeLeft 0 s
    else
      let s := playNotification "Break time over, ready to work!" config s in
      let s := set_isWorkSession true s in
      set_timeLeft 0 s in
  let s := updateStatusBar s in
  broadcastUpdate config s.

Definition tick (config : WorkspaceConfiguration) (now : Z)
  (s : PomodoroTimer) : PomodoroTimer :=
  let elapsed := JS.floor_div (now - lastUpdateTime s) 1000 in
  if 1 <=? elapsed then
    let s := set_timeLeft (timeLeft s - elapsed) s in
    let s := set_lastUpdateTime now s in
    if timeLeft s <=? 0 then onTimerEnd config s
    else
      let s := updateStatusBar s in
      broadcastUpdate config s
  else s.

Definition toggleTimer (config : WorkspaceConfiguration) (now : Z)
  (s : PomodoroTimer) : PomodoroTimer :=
  if isRunning s then stop config s else start config now s.

(** [this.panel.reveal ()]: a request to the window.  Nothing of the
    panel changes while [showPanel] runs; [visible] follows later, with an
    event of the host. *)
Definition reveal (s : PomodoroTimer) : PomodoroTimer := s.

(** [createWebviewPanel] hands out a panel that is visible. *)
Definition showPanel (config : WorkspaceConfiguration) (s : PomodoroTimer)
  : PomodoroTimer :=
  let s := match panel s with
           | Some _ => s
           | None => set_panel (Some {| visible := true; posted := [] |}) s
           end in
  let s := reveal s in
  broadcastUpdate config s.

(** The object the constructor builds, its status bar item created and
    rendered by [activate]. *)
Definition constructor (now : Z) : PomodoroTimer :=
  {| timeLeft := 0; isRunning := false; isWorkSession := true;
     sessionsCompleted := 0; timer := None;
     statusBar := {| text := ""; tooltip := "" |};
     panel := None; lastUpdateTime := now;
     intervals := []; nextHandle := O; trace := [] |}.

Definition activate (now : Z) : PomodoroTimer :=
  updateStatusBar (constructor now).

(** ** The event loop

    The callback registered by [setInterval (() => this.tick (), 100)] runs
    only for a handle that is still active. *)

Definition fire (h : Handle) (config : WorkspaceConfiguration) (now : Z)
  (s : PomodoroTimer) : PomodoroTimer :=
  if in_dec Nat.eq_dec h (intervals s) then tick config now s else s.

(** What can happen to the timer: a command of the user, or the periodic
    driver calling back.  Every event comes with the configuration and the
    clock reading of its moment. *)
Inductive Event : Type :=
| EvStart (config : WorkspaceConfiguration) (now : Z)
| EvStop (config : WorkspaceConfiguration)
| EvReset (config : WorkspaceConfiguration)
| EvToggle (config : WorkspaceConfiguration) (now : Z)
| EvShowPanel (config : WorkspaceConfiguration)
| EvTick (h : Handle) (config : WorkspaceConfiguration) (now : Z).

Definition exec (e : Event) (s : PomodoroTimer) : PomodoroTimer :=
  match e with
  | EvStart config now => start config now s
  | EvStop config => stop config s
  | EvReset config => reset config s
  | EvToggle config now => toggleTimer config now s
  | EvShowPanel config => showPanel config s
  | EvTick h config now => fire h config now s
  end.


(** The settings as the data model has them: durations and cycle length
    are positive. *)
Definition valid_config (config : WorkspaceConfiguration) : Prop :=
  0 < get (cfg_workDuration config) 25 /\
  0 < get (cfg_breakDuration config) 5 /\
  0 < get (cfg_longBreakDuration config) 15 /\
  0 < get (cfg_sessionsBeforeLongBreak config) 4.



(** The driver invariant: the handle kept in [this.timer] is the one and
    only active interval, and there is one exactly while running. *)
Definition driver_inv (s : PomodoroTimer) : Prop :=
  intervals s = match timer s with Some h => [h] | None => [] end /\
  (isRunning s = true <-> timer s <> None).

Definition defaults : WorkspaceConfiguration :=
  {| cfg_workDuration := None; cfg_breakDuration := None;
     cfg_longBreakDuration := None; cfg_sessionsBeforeLongBreak := None;
     cfg_soundEnabled := None; cfg_notificationEnabled := None |}.

(** The invariant of the countdown under valid settings: the driver
    invariant, a countdown that is never negative, and a running timer
    that always has time left. *)
Definition inv (s : PomodoroTimer) : Prop :=
  driver_inv s /\ 0 <= timeLeft s /\ (isRunning s = true -> 0 < timeLeft s).

(** The whole seconds between the tick reference and [now], the [elapsed]
    constant of [tick]. *)
Definition elapsed (now : Z) (s : PomodoroTimer) : Z :=
  JS.floor_div (now - lastUpdateTime s) 1000.



(** ** The panel protocol, the settings and the teardown *)

(** A value a panel message can carry for a setting. *)
Inductive Value : Type :=
| VNumber (z : Z)
| VBool (b : bool)
| VString (s : string)
| VNull.

Inductive ConfigurationTarget : Type :=
| Global
| Workspace
| WorkspaceFolder.

(** One call [config.update (key, value, target)]. *)
Record ConfigUpdate : Type := {
  upd_key : string;
  upd_value : Value;
  upd_target : ConfigurationTarget
}.

(** A message of the panel: its [command], and its [settings] object, if
    it has one, as the entries [Object.entries] enumerates. *)
Record Message : Type := {
  msg_command : string;
  msg_settings : option (list (string * Value))
}.

(** [updateSettings]: one update per entry, in order, the key without its
    first ["pomodoroTimer."]; the calls are the whole effect.  Without a
    settings object [Object.entries] throws, which is [None]. *)
Definition updateSettings (settings : option (list (string * Value)))
  : option (list ConfigUpdate) :=
  match settings with
  | Some entries =>
      Some (map (fun '(key, value) =>
                   let settingKey := JS.replace "pomodoroTimer." "" key in
                   {| upd_key := settingKey; upd_value := value;
                      upd_target := Global |})
                entries)
  | None => None
  end.

(** [handleWebviewMessage]: the timer afterwards and the configuration
    updates requested, or [None] when the handler throws. *)
Definition handleWebviewMessage (message : Message)
  (config : WorkspaceConfiguration) (now : Z) (s : PomodoroTimer)
  : option (PomodoroTimer * list ConfigUpdate) :=
  if String.eqb (msg_command message) "start" then
    Some (start config now s, [])
  else if String.eqb (msg_command message) "stop" then
    Some (stop config s, [])
  else if String.eqb (msg_command message) "reset" then
    Some (reset config s, [])
  else if String.eqb (msg_command message) "updateSettings" then
    option_map (fun updates => (s, updates))
               (updateSettings (msg_settings message))
  else Some (s, []).

(** The watcher of [registerConfigWatcher]; [affects] is the answer of
    [e.affectsConfiguration ('pomodoroTimer')]. *)
Definition onDidChangeConfiguration (affects : bool)
  (config : WorkspaceConfiguration) (s : PomodoroTimer) : PomodoroTimer :=
  if affects then broadcastUpdate config s else s.

(** The [onDidDispose] callback of the panel. *)
Definition onDidDispose (s : PomodoroTimer) : PomodoroTimer :=
  set_panel None s.

(** The exported [deactivate]. *)
Definition deactivate (s : PomodoroTimer) : PomodoroTimer :=
  match timer s with
  | Some h => clearInterval h s
  | None => s
  end.

(** Everything the host can make the activated extension do. *)
Inductive Action : Type :=
| ActEvent (e : Event)
| ActMessage (message : Message) (config : WorkspaceConfiguration) (now : Z)
| ActConfigChanged (affects : bool) (config : WorkspaceConfiguration)
| ActPanelDisposed.

(** A handler that throws has changed nothing before. *)
Definition perform (a : Action) (s : PomodoroTimer) : PomodoroTimer :=
  match a with
  | ActEvent e => exec e s
  | ActMessage message config now =>
      match handleWebviewMessage message config now s with
      | Some (s', _) => s'
      | None => s
      end
  | ActConfigChanged affects config => onDidChangeConfiguration affects config s
  | ActPanelDisposed => onDidDispose s
  end.

Definition perform_all (acts : list Action) (s : PomodoroTimer)
  : PomodoroTimer :=
  fold_left (fun s a => perform a s) acts s.

(** The clock reading at which the countdown is due to end. *)
Definition deadline (s : PomodoroTimer) : Z :=
  lastUpdateTime s + timeLeft s * 1000.


(** The latest [update] message the panel was sent. *)
Definition last_posted (s : PomodoroTimer) : option PanelState :=
  match panel s with
  | Some p => last (map Some (posted p)) None
  | None => None
  end.

(** The status bar shows the timer as it is. *)
Definition rendered (s : PomodoroTimer) : Prop :=
  statusBar s = statusBar (updateStatusBar s).

(** The counters agree with the phase: the count is never negative, and a
    break only follows a completed session. *)
Definition sessions_inv (s : PomodoroTimer) : Prop :=
  0 <= sessionsCompleted s /\
  (isWorkSession s = false -> 1 <= sessionsCompleted s).


(** ** Reading a rendered number back *)

(** The number a string of decimal digits denotes; [None] when the string
    is empty or holds any other character. *)
Definition decimal_value (s : string) : option Z :=
  option_map Z.of_uint (NilZero.uint_of_string s).

(** Every number below [n] prints with at most two characters. *)
Definition short_upto (n : nat) : bool :=
  forallb (fun k => (String.length (JS.String_ (Z.of_nat k)) <=? 2)%nat)
          (seq 0 n).

(** ** The first version of the extension

    The TypeScript script that came before the class: module-level
    variables, a fixed decrement of one second per callback of a 1000 ms
    interval, and a status text whose minutes are not padded.  It has no
    settings, no pause and no long break; the properties below are about the
    class, and this model records where the script differs. *)

Module Legacy.

Definition WORK_TIME : Z := 25 * 60.
Definition BREAK_TIME : Z := 5 * 60.

Record Script : Type := {
  timer : option Handle;
  secondsLeft : Z;
  isWorking : bool;
  pomodoroCount : Z;
  statusBar : string;
  intervals : list Handle;
  shown : list string
}.

(** The [timeText] constant of [updateStatusBar]. *)
Definition timeText (secondsLeft : Z) : string :=
  let minutes := JS.floor_div secondsLeft 60 in
  let seconds := Z.rem secondsLeft 60 in
  JS.String_ minutes ++ ":" ++ (if seconds <? 10 then "0" else "")
  ++ JS.String_ seconds.

Definition updateStatusBar (g : Script) : Script :=
  {| timer := timer g; secondsLeft := secondsLeft g;
     isWorking := isWorking g; pomodoroCount := pomodoroCount g;
     statusBar :=
       (if isWorking g then "🍅 " else "☕ ") ++ timeText (secondsLeft g)
       ++ " (" ++ JS.String_ (pomodoroCount g) ++ ")";
     intervals := intervals g; shown := shown g |}.

Definition stopTimer (g : Script) : Script :=
  {| timer := None; secondsLeft := secondsLeft g;
     isWorking := isWorking g; pomodoroCount := pomodoroCount g;
     statusBar := "🍅 Начать";
     intervals := match timer g with
                  | Some h => remove Nat.eq_dec h (intervals g)
                  | None => intervals g
                  end;
     shown := (shown g ++ ["⏹️ Остановлено"])%list |}.

(** The next phase starts only when the user answers the question. *)
Definition timerFinished (g : Script) : Script :=
  let g := stopTimer g in
  if isWorking g then
    {| timer := timer g; secondsLeft := secondsLeft g;
       isWorking := isWorking g; pomodoroCount := pomodoroCount g + 1;
       statusBar := statusBar g; intervals := intervals g;
       shown := (shown g ++
                 [("🎉 Помодоро #" ++ JS.String_ (pomodoroCount g + 1)
                   ++ " готов! Отдохнуть?")%string])%list |}
  else
    {| timer := timer g; secondsLeft := secondsLeft g;
       isWorking := isWorking g; pomodoroCount := pomodoroCount g;
       statusBar := statusBar g; intervals := intervals g;
       shown := (shown g ++ ["☕ Перерыв окончен! Ещё поработаем?"])%list |}.

(** The callback [startTimer] registers. *)
Definition onInterval (g : Script) : Script :=
  let g :=
    {| timer := timer g; secondsLeft := secondsLeft g - 1;
       isWorking := isWorking g; pomodoroCount := pomodoroCount g;
       statusBar := statusBar g; intervals := intervals g;
       shown := shown g |} in
  let g := updateStatusBar g in
  if secondsLeft g <=? 0 then timerFinished g else g.

(** [startTimer]: renders, then registers a new interval and keeps its
    handle [h], the one the host hands out; an interval registered before is
    not cleared. *)
Definition startTimer (h : Handle) (g : Script) : Script :=
  let g := updateStatusBar g in
  {| timer := Some h; secondsLeft := secondsLeft g;
     isWorking := isWorking g; pomodoroCount := pomodoroCount g;
     statusBar := statusBar g; intervals := (intervals g ++ [h])%list;
     shown := shown g |}.

Definition startWork (h : Handle) (g : Script) : Script :=
  let g :=
    {| timer := timer g; secondsLeft := WORK_TIME;
       isWorking := true; pomodoroCount := pomodoroCount g;
       statusBar := statusBar g; intervals := intervals g;
       shown := shown g |} in
  let g := startTimer h g in
  {| timer := timer g; secondsLeft := secondsLeft g;
     isWorking := isWorking g; pomodoroCount := pomodoroCount g;
     statusBar := statusBar g; intervals := intervals g;
     shown := (shown g ++ ["🍅 Начали работать!"])%list |}.

Definition startBreak (h : Handle) (g : Script) : Script :=
  let g :=
    {| timer := timer g; secondsLeft := BREAK_TIME;
       isWorking := false; pomodoroCount := pomodoroCount g;
       statusBar := statusBar g; intervals := intervals g;
       shown := shown g |} in
  let g := startTimer h g in
  {| timer := timer g; secondsLeft := secondsLeft g;
     isWorking := isWorking g; pomodoroCount := pomodoroCount g;
     statusBar := statusBar g; intervals := intervals g;
     shown := (shown g ++ ["☕ Перерыв начался!"])%list |}.

(** The [pomodoro.click] command of the status bar item. *)
Definition click (h : Handle) (g : Script) : Script :=
  match timer g with
  | Some _ => stopTimer g
  | None => startWork h g
  end.

(** The continuations of the two questions of [timerFinished]; [answer]
    is the button picked, if any. *)
Definition answerWorkPrompt (answer : option string) (h : Handle)
  (g : Script) : Script :=
  match answer with
  | Some a => if String.eqb a "Да" then startBreak h g else g
  | None => g
  end.

Definition answerBreakPrompt (answer : option string) (h : Handle)
  (g : Script) : Script :=
  match answer with
  | Some a => if String.eqb a "Да" then startWork h g else g
  | None => g
  end.

(** [n] callbacks of the interval in a row. *)
Definition callbacks (n : nat) (g : Script) : Script :=
  Nat.iter n onInterval g.

End Legacy.

(** * Properties *)

(** ** What rendering and broadcasting leave alone *)

Section Frame.

Variable config : WorkspaceConfiguration.
Variable s : PomodoroTimer.

Ltac by_panel :=
  unfold broadcastUpdate; destruct (panel s) as [[[] ?]|]; reflexivity.

Lemma timeLeft_broadcastUpdate :
  timeLeft (broadcastUpdate config s) = timeLeft s.
Proof. by_panel. Qed.

Lemma isRunning_broadcastUpdate :
  isRunning (broadcastUpdate config s) = isRunning s.
Proof. by_panel. Qed.

Lemma isWorkSession_broadcastUpdate :
  isWorkSession (broadcastUpdate config s) = isWorkSession s.
Proof. by_panel. Qed.

Lemma sessionsCompleted_broadcastUpdate :
  sessionsCompleted (broadcastUpdate config s) = sessionsCompleted s.
Proof. by_panel. Qed.

Lemma timer_broadcastUpdate :
  timer (broadcastUpdate config s) = timer s.
Proof. by_panel. Qed.

Lemma statusBar_broadcastUpdate :
  statusBar (broadcastUpdate config s) = statusBar s.
Proof. by_panel. Qed.

Lemma lastUpdateTime_broadcastUpdate :
  lastUpdateTime (broadcastUpdate config s) = lastUpdateTime s.
Proof. by_panel. Qed.

Lemma intervals_broadcastUpdate :
  intervals (broadcastUpdate config s) = intervals s.
Proof. by_panel. Qed.

Lemma nextHandle_broadcastUpdate :
  nextHandle (broadcastUpdate config s) = nextHandle s.
Proof. by_panel. Qed.

Lemma trace_broadcastUpdate :
  trace (broadcastUpdate config s) = trace s.
Proof. by_panel. Qed.

End Frame.

Create Rewrite HintDb timer_fields.

#[export] Hint Rewrite
  timeLeft_broadcastUpdate isRunning_broadcastUpdate
  isWorkSession_broadcastUpdate sessionsCompleted_broadcastUpdate
  timer_broadcastUpdate statusBar_broadcastUpdate
  lastUpdateTime_broadcastUpdate intervals_broadcastUpdate
  nextHandle_broadcastUpdate trace_broadcastUpdate : timer_fields.

(** Unfold the methods down to the field updates, pushing the projections
    through [broadcastUpdate]. *)
Ltac fields :=
  autorewrite with timer_fields; cbn;
  autorewrite with timer_fields; cbn.

Ltac methods :=
  unfold toggleTimer, fire, tick, onTimerEnd, reset, start, stop, showPanel;
  fields.

Lemma playNotification_fields message config s :
  let s' := playNotification message config s in
  timeLeft s' = timeLeft s /\ isRunning s' = isRunning s /\
  isWorkSession s' = isWorkSession s /\
  sessionsCompleted s' = sessionsCompleted s /\ timer s' = timer s /\
  lastUpdateTime s' = lastUpdateTime s /\ intervals s' = intervals s.
Proof.
  unfold playNotification, beep.
  destruct (get (cfg_soundEnabled config) true),
           (get (cfg_notificationEnabled config) true); cbn; repeat split.
Qed.

Lemma remove_single (h : Handle) : remove Nat.eq_dec h [h] = [].
Proof. cbn. destruct (Nat.eq_dec h h); [reflexivity | congruence]. Qed.

(** ** What [stop] does *)

Lemma stop_fields config s :
  let s' := stop config s in
  isRunning s' = false /\
  timer s' = None /\
  timeLeft s' = timeLeft s /\
  isWorkSession s' = isWorkSession s /\
  sessionsCompleted s' = sessionsCompleted s /\
  lastUpdateTime s' = lastUpdateTime s /\
  trace s' = trace s /\
  intervals s' = match timer s with
                 | Some h => remove Nat.eq_dec h (intervals s)
                 | None => intervals s
                 end.
Proof.
  cbv zeta. methods. destruct (timer s); repeat split.
Qed.

Lemma stop_clears config s h :
  timer s = Some h -> ~ In h (intervals (stop config s)).
Proof.
  intros Hh. destruct (stop_fields config s) as (_ & _ & _ & _ & _ & _ & _ & ->).
  rewrite Hh. apply remove_In.
Qed.

Lemma stop_driver_inv config s : driver_inv s -> driver_inv (stop config s).
Proof.
  intros [Hi Hr]. unfold driver_inv.
  destruct (stop_fields config s) as (-> & -> & _ & _ & _ & _ & _ & ->).
  destruct (timer s) as [h|]; rewrite Hi, ?remove_single;
    (split; [reflexivity | split; [discriminate | congruence]]).
Qed.

Lemma stop_no_driver config s :
  driver_inv s -> intervals (stop config s) = [].
Proof.
  intros Hd. destruct (stop_driver_inv config s Hd) as [Hi _].
  rewrite Hi. now destruct (stop_fields config s) as (_ & -> & _).
Qed.

Lemma idle_timer s : driver_inv s -> isRunning s = false -> timer s = None.
Proof.
  intros [_ Hr] Hrun. destruct (timer s) eqn:E; [|reflexivity].
  assert (isRunning s = true) by (apply Hr; discriminate). congruence.
Qed.


(** ** What [reset] and [onTimerEnd] do *)

Lemma reset_fields config s :
  let s' := reset config s in
  timeLeft s' = 0 /\
  isWorkSession s' = true /\
  sessionsCompleted s' = 0 /\
  isRunning s' = false /\
  timer s' = None /\
  intervals s' = intervals (stop config s).
Proof.
  cbv zeta. destruct (stop_fields config s) as (Hr & Ht & _).
  unfold reset. fields. repeat split; assumption.
Qed.

Lemma playNotification_trace message config s :
  trace (playNotification message config s) =
  (trace s
   ++ (if get (cfg_soundEnabled config) true then [Beep] else [])
   ++ (if get (cfg_notificationEnabled config) true
       then [InformationMessage ("🍅 " ++ message)] else []))%list.
Proof.
  unfold playNotification, beep.
  destruct (get (cfg_soundEnabled config) true),
           (get (cfg_notificationEnabled config) true); cbn;
    rewrite <- ?app_assoc, ?app_nil_r; reflexivity.
Qed.

Lemma onTimerEnd_fields config s :
  let s' := onTimerEnd config s in
  isRunning s' = false /\
  timer s' = None /\
  timeLeft s' = 0 /\
  lastUpdateTime s' = lastUpdateTime s /\
  intervals s' = intervals (stop config s) /\
  (isWorkSession s = true ->
   sessionsCompleted s' = sessionsCompleted s + 1 /\
   isWorkSession s' = false /\
   trace s' = trace (playNotification "Work session completed!" config s)) /\
  (isWorkSession s = false ->
   sessionsCompleted s' = sessionsCompleted s /\
   isWorkSession s' = true /\
   trace s' =
     trace (playNotification "Break time over, ready to work!" config s)).
Proof.
  cbv zeta.
  destruct (stop_fields config s) as (Hr & Ht & _ & Hw & Hc & Hl & Htr & _).
  unfold onTimerEnd. fields. rewrite Hw.
  destruct (isWorkSession s) eqn:Hphase; cbn.
  - destruct (playNotification_fields "Work session completed!" config
                (set_sessionsCompleted (sessionsCompleted (stop config s) + 1)
                   (stop config s))) as (_ & -> & _ & -> & -> & -> & ->).
    cbn. rewrite Hc, !playNotification_trace. cbn. rewrite Htr.
    repeat split; try assumption; discriminate.
  - destruct (playNotification_fields "Break time over, ready to work!" config
                (stop config s)) as (_ & -> & _ & -> & -> & -> & ->).
    rewrite !playNotification_trace, Htr.
    repeat split; try assumption; discriminate.
Qed.

(** ** What [tick] does *)

Lemma tick_unfold config now s :
  tick config now s =
  if 1 <=? elapsed now s then
    let t :=
      set_lastUpdateTime now (set_timeLeft (timeLeft s - elapsed now s) s) in
    if timeLeft s - elapsed now s <=? 0 then onTimerEnd config t
    else broadcastUpdate config (updateStatusBar t)
  else s.
Proof. reflexivity. Qed.

Lemma elapsed_floor now s :
  elapsed now s * 1000 <= now - lastUpdateTime s < (elapsed now s + 1) * 1000.
Proof.
  unfold elapsed, JS.floor_div.
  pose proof (Z.div_mod (now - lastUpdateTime s) 1000 ltac:(lia)).
  pose proof (Z.mod_pos_bound (now - lastUpdateTime s) 1000 ltac:(lia)).
  lia.
Qed.

Lemma tick_below config now s : elapsed now s < 1 -> tick config now s = s.
Proof.
  intros Hlt. rewrite tick_unfold. apply Z.leb_gt in Hlt. now rewrite Hlt.
Qed.

Lemma tick_counting config now s :
  1 <= elapsed now s -> 0 < timeLeft s - elapsed now s ->
  let s' := tick config now s in
  timeLeft s' = timeLeft s - elapsed now s /\
  lastUpdateTime s' = now /\
  isRunning s' = isRunning s /\
  isWorkSession s' = isWorkSession s /\
  sessionsCompleted s' = sessionsCompleted s /\
  timer s' = timer s /\
  intervals s' = intervals s /\
  trace s' = trace s.
Proof.
  intros He Hpos. cbv zeta. rewrite tick_unfold.
  apply Z.leb_le in He. apply Z.leb_gt in Hpos. rewrite He. cbv zeta.
  rewrite Hpos. fields. repeat split.
Qed.

Lemma tick_expiry config now s :
  1 <= elapsed now s -> timeLeft s - elapsed now s <= 0 ->
  tick config now s =
  onTimerEnd config
    (set_lastUpdateTime now (set_timeLeft (timeLeft s - elapsed now s) s)).
Proof.
  intros He Hz. rewrite tick_unfold.
  apply Z.leb_le in He, Hz. now rewrite He, Hz.
Qed.


(** ** What [start] does *)

Lemma start_running config now s :
  isRunning s = true -> start config now s = s.
Proof. intros Hrun. unfold start. now rewrite Hrun. Qed.

Lemma start_fields config now s :
  isRunning s = false ->
  let s' := start config now s in
  timeLeft s' = (if timeLeft s =? 0 then nextInterval config s else timeLeft s) /\
  isRunning s' = true /\
  lastUpdateTime s' = now /\
  isWorkSession s' = isWorkSession s /\
  sessionsCompleted s' = sessionsCompleted s /\
  timer s' = Some (nextHandle s) /\
  intervals s' = (intervals s ++ [nextHandle s])%list /\
  trace s' = trace s.
Proof.
  intros Hrun. cbv zeta. unfold start. rewrite Hrun. fields.
  destruct (timeLeft s =? 0); repeat split.
Qed.

Lemma start_isRunning config now s : isRunning (start config now s) = true.
Proof.
  destruct (isRunning s) eqn:Hrun.
  - now rewrite start_running.
  - apply (start_fields config now s Hrun).
Qed.



(** ** The invariant *)

Lemma activate_inv now : inv (activate now).
Proof.
  unfold inv, driver_inv. cbn.
  repeat split; try lia; try congruence; discriminate.
Qed.


Lemma start_driver_inv config now s :
  driver_inv s -> driver_inv (start config now s).
Proof.
  intros Hd. destruct (isRunning s) eqn:Hrun; [now rewrite start_running|].
  pose proof (idle_timer s Hd Hrun) as Ht. destruct Hd as [Hi _].
  unfold driver_inv.
  destruct (start_fields config now s Hrun)
    as (_ & -> & _ & _ & _ & -> & -> & _).
  rewrite Hi, Ht. split; [reflexivity | split; [discriminate | reflexivity]].
Qed.



Lemma onTimerEnd_inv config s : driver_inv s -> inv (onTimerEnd config s).
Proof.
  intros Hd. unfold inv, driver_inv.
  destruct (onTimerEnd_fields config s) as (-> & -> & -> & _ & -> & _).
  rewrite stop_no_driver by assumption.
  repeat split; try lia; try discriminate. congruence.
Qed.









Lemma valid_defaults : valid_config defaults.
Proof. unfold valid_config. cbn. lia. Qed.



(** ** Starting *)




(** The two cases the specification singles out, and its scenario of a
    first work session followed by a short break. *)
Example start_break_after_4_of_4 :
  let s := set_sessionsCompleted 4 (set_isWorkSession false (activate 0)) in
  timeLeft (start defaults 0 s) = get (cfg_longBreakDuration defaults) 15 * 60.
Proof. reflexivity. Qed.

Example start_break_after_3_of_4 :
  let s := set_sessionsCompleted 3 (set_isWorkSession false (activate 0)) in
  timeLeft (start defaults 0 s) = get (cfg_breakDuration defaults) 5 * 60.
Proof. reflexivity. Qed.

Example scenario_short_break :
  let s1 := start defaults 0 (activate 0) in
  let s2 := fire 0%nat defaults 1500000 s1 in
  let s3 := start defaults 1500000 s2 in
  timeLeft s1 = 1500 /\
  (isWorkSession s2, sessionsCompleted s2, timeLeft s2, isRunning s2)
    = (false, 1, 0, false) /\
  timeLeft s3 = 300 /\
  text (statusBar s3) = "☕ Break 05:00 ●".
Proof. vm_compute. auto. Qed.

(** C10.  [start] on a paused countdown resumes it: the time left, the
    phase and the number of completed sessions stay, the timer runs, and
    the tick reference is the current clock reading. *)
Theorem start_resume :
  forall (config : WorkspaceConfiguration) (now : Z) (s : PomodoroTimer),
    isRunning s = false ->
    0 < timeLeft s ->
    let s' := start config now s in
    timeLeft s' = timeLeft s /\
    isWorkSession s' = isWorkSession s /\
    sessionsCompleted s' = sessionsCompleted s /\
    isRunning s' = true /\
    lastUpdateTime s' = now.
Proof.
  intros config now s Hrun Hpos. cbv zeta.
  destruct (start_fields config now s Hrun) as (-> & -> & -> & -> & -> & _).
  destruct (timeLeft s =? 0) eqn:E; [apply Z.eqb_eq in E; lia|].
  repeat split.
Qed.

Lemma start_resume_witness :
  let s :=
    stop defaults (fire 0%nat defaults 60000 (start defaults 0 (activate 0))) in
  timeLeft s = 1440 /\ timeLeft (start defaults 90000 s) = 1440 /\
  lastUpdateTime (start defaults 90000 s) = 90000.
Proof.
  intro s. split; [reflexivity|].
  pose proof (start_resume defaults 90000 s eq_refl eq_refl) as H.
  split; [exact (proj1 H) | exact (proj2 (proj2 (proj2 (proj2 H))))].
Defined.

(** C6.  [start] on a running timer changes nothing at all, so a second
    [start] in a row yields the state of the first, and a timer that obeys
    the driver invariant then has exactly one active interval. *)
Theorem start_idempotent :
  forall (config1 config2 : WorkspaceConfiguration) (now1 now2 : Z)
         (s : PomodoroTimer),
    (isRunning s = true -> start config1 now1 s = s) /\
    start config2 now2 (start config1 now1 s) = start config1 now1 s /\
    (driver_inv s ->
     List.length (intervals (start config2 now2 (start config1 now1 s)))
     = 1%nat).
Proof.
  intros config1 config2 now1 now2 s.
  pose proof (start_isRunning config1 now1 s) as Hrun.
  split; [apply start_running|].
  split; [now apply start_running|].
  intros Hd. rewrite start_running by exact Hrun.
  destruct (start_driver_inv config1 now1 s Hd) as [Hi Hr].
  rewrite Hi. apply Hr in Hrun.
  destruct (timer (start config1 now1 s)); [reflexivity | congruence].
Qed.

Lemma start_idempotent_witness :
  List.length (intervals (start defaults 250 (start defaults 0 (activate 0))))
  = 1%nat.
Proof.
  apply (start_idempotent defaults defaults 0 250 (activate 0)).
  split; [reflexivity|].
  split; [discriminate | intro H; exfalso; apply H; reflexivity].
Defined.

(** ** Stopping and resetting *)

(** C7.  [stop] pauses: the timer no longer runs, its handle is dropped and
    no longer active (no interval at all is left under the driver
    invariant), and the time left, the phase and the number of completed
    sessions are what they were. *)
Theorem stop_pause :
  forall (config : WorkspaceConfiguration) (s : PomodoroTimer),
    let s' := stop config s in
    isRunning s' = false /\
    timer s' = None /\
    (forall h, timer s = Some h -> ~ In h (intervals s')) /\
    (driver_inv s -> intervals s' = []) /\
    timeLeft s' = timeLeft s /\
    isWorkSession s' = isWorkSession s /\
    sessionsCompleted s' = sessionsCompleted s.
Proof.
  intros config s. cbv zeta.
  destruct (stop_fields config s) as (Hr & Ht & Hl & Hw & Hc & _).
  repeat split; try assumption.
  - intros h. apply stop_clears.
  - apply stop_no_driver.
Qed.

Lemma stop_pause_witness :
  let s := start defaults 0 (activate 0) in
  intervals s = [0%nat] /\ intervals (stop defaults s) = [] /\
  timeLeft (stop defaults s) = timeLeft s.
Proof.
  intro s. pose proof (stop_pause defaults s) as H. cbv zeta in H.
  split; [reflexivity|]. split.
  - apply H. split; [reflexivity|].
    split; [discriminate | reflexivity].
  - apply H.
Defined.

(** C5.  Whatever the state before, [reset] leaves a stopped timer at zero
    in the Work phase with no completed session, its handle dropped and
    inactive (no interval at all is left under the driver invariant). *)
Theorem reset_state :
  forall (config : WorkspaceConfiguration) (s : PomodoroTimer),
    let s' := reset config s in
    timeLeft s' = 0 /\
    isWorkSession s' = true /\
    sessionsCompleted s' = 0 /\
    isRunning s' = false /\
    timer s' = None /\
    (forall h, timer s = Some h -> ~ In h (intervals s')) /\
    (driver_inv s -> intervals s' = []).
Proof.
  intros config s. cbv zeta.
  destruct (reset_fields config s) as (Hl & Hw & Hc & Hr & Ht & ->).
  repeat split; try assumption.
  - intros h. apply stop_clears.
  - apply stop_no_driver.
Qed.

Lemma reset_state_witness :
  let s := fire 0%nat defaults 61000 (start defaults 0 (activate 0)) in
  (timeLeft s, isRunning s, intervals s) = (1439, true, [0%nat]) /\
  intervals (reset defaults s) = [].
Proof.
  intro s. split; [reflexivity|].
  apply (reset_state defaults s).
  split; [reflexivity|]. split; [discriminate | reflexivity].
Defined.

(** ** Ticking *)






(** The dropped part of a second accumulates: two late ticks cover almost
    four seconds of wall-clock time and count two. *)
Example tick_drift :
  let s0 := start defaults 0 (activate 0) in
  let s1 := tick defaults 1999 s0 in
  let s2 := tick defaults 3998 s1 in
  timeLeft s0 - timeLeft s2 = 2 /\ elapsed 3998 s0 = 3.
Proof. vm_compute. split; reflexivity. Qed.




(** ** The life of the time left *)




(** ** Rendering the time left *)

Example decimal_value_padded : decimal_value "07" = Some 7.
Proof. reflexivity. Qed.

Example decimal_value_rejects :
  decimal_value "1a" = None /\ decimal_value "" = None /\
  decimal_value "-1" = None.
Proof. repeat split. Qed.

Lemma to_int_nonneg z :
  0 <= z -> exists d, Z.to_int z = Pos d /\ d <> Nil /\ Z.of_uint d = z.
Proof.
  intros Hz. pose proof (DecimalZ.of_to z) as Hoz.
  destruct z as [|p|p]; [| |lia].
  - exists Decimal.zero. repeat split. discriminate.
  - exists (Pos.to_uint p). repeat split; auto.
    intro Hn. cbn in Hoz. rewrite Hn in Hoz. discriminate.
Qed.

(** Reading back what [String] prints gives the number. *)
Lemma decimal_value_String z : 0 <= z -> decimal_value (JS.String_ z) = Some z.
Proof.
  intros Hz. destruct (to_int_nonneg z Hz) as (d & Hd & Hn & Hv).
  unfold decimal_value, JS.String_. rewrite Hd. cbn [NilZero.string_of_int].
  rewrite NilZero.usu by assumption. cbn. now rewrite Hv.
Qed.

Lemma String_nonempty z : JS.String_ z <> "".
Proof.
  unfold JS.String_. destruct (Z.to_int z) as [d|d]; cbn; [|discriminate].
  destruct d; discriminate.
Qed.

(** A leading zero does not change the number. *)
Lemma decimal_value_zero_prefix s v :
  decimal_value s = Some v -> decimal_value (String "0" s) = Some v.
Proof.
  unfold decimal_value. destruct s as [|c s]; [discriminate|].
  cbn [NilZero.uint_of_string].
  change (NilEmpty.uint_of_string (String "0" (String c s)))
    with (uint_of_char "0" (NilEmpty.uint_of_string (String c s))).
  destruct (NilEmpty.uint_of_string (String c s)) as [d|]; [|discriminate].
  cbn. auto.
Qed.

Lemma decimal_value_padStart s v :
  decimal_value s = Some v -> decimal_value (JS.padStart 2 "0" s) = Some v.
Proof.
  intros H. unfold JS.padStart.
  destruct s as [|a [|b s]]; [discriminate| |assumption].
  cbn. now apply decimal_value_zero_prefix.
Qed.

Lemma padStart_2_length s :
  s <> "" -> String.length (JS.padStart 2 "0" s) = Nat.max 2 (String.length s).
Proof.
  intros Hs. unfold JS.padStart.
  destruct s as [|a [|b s]]; [congruence | reflexivity |].
  cbn. lia.
Qed.

Lemma String_length_small z :
  0 <= z < 100 -> (String.length (JS.String_ z) <= 2)%nat.
Proof.
  intros Hz.
  assert (Hall : short_upto 100 = true) by (vm_compute; reflexivity).
  unfold short_upto in Hall. rewrite forallb_forall in Hall.
  specialize (Hall (Z.to_nat z)). rewrite Z2Nat.id in Hall by lia.
  apply Nat.leb_le, Hall, in_seq. lia.
Qed.

Lemma padStart_2_small z :
  0 <= z < 100 -> String.length (JS.padStart 2 "0" (JS.String_ z)) = 2%nat.
Proof.
  intros Hz. rewrite padStart_2_length by apply String_nonempty.
  pose proof (String_length_small z Hz). lia.
Qed.

Lemma append_assoc (a b c : string) : (a ++ b) ++ c = a ++ b ++ c.
Proof. induction a as [|x a IH]; cbn; [reflexivity | now rewrite IH]. Qed.

Lemma ToString_safe z : Z.abs z < 2 ^ 53 -> JS.ToString z = JS.String_ z.
Proof.
  intros Hz. unfold JS.ToString. apply Z.ltb_lt in Hz. now rewrite Hz.
Qed.

Example ToString_samples :
  JS.ToString (2 ^ 53 - 1) = "9007199254740991" /\
  JS.ToString (2 ^ 60) = "1152921504606847000" /\
  JS.ToString (2 ^ 64) = "18446744073709552000" /\
  JS.ToString (10 ^ 21) = "1e+21" /\
  JS.ToString (2 ^ 70) = "1.1805916207174113e+21" /\
  JS.ToString (JS.round53 (10 ^ 23)) = "1e+23" /\
  JS.ToString (- 2 ^ 70) = "-1.1805916207174113e+21".
Proof. vm_compute. repeat split. Qed.

(** C8 (amended).  For a time left [R] that is a safe integer,
    [0 <= R <= 2^53 - 1], the status bar shows, between the phase and the
    run indicator, [mm ++ ":" ++ ss] where [mm] is the decimal numeral of
    [R / 60] and [ss] the one of [R mod 60], each padded with zeros to at
    least two characters: [ss] always has two, [mm] has two up to 99
    minutes and is never cut beyond. *)
Theorem timeStr_format :
  forall R : Z,
    0 <= R <= 2 ^ 53 - 1 ->
    exists mm ss : string,
      timeStr R = mm ++ ":" ++ ss /\
      mm = JS.padStart 2 "0" (JS.ToString (R / 60)) /\
      ss = JS.padStart 2 "0" (JS.ToString (R mod 60)) /\
      decimal_value mm = Some (R / 60) /\
      decimal_value ss = Some (R mod 60) /\
      (2 <= String.length mm)%nat /\
      String.length ss = 2%nat /\
      (R < 6000 -> String.length mm = 2%nat) /\
      (forall s : PomodoroTimer,
         timeLeft s = R ->
         text (statusBar (updateStatusBar s)) =
         (if isWorkSession s then "🍅" else "☕") ++ " " ++
         (if isWorkSession s then "Work" else "Break") ++ " " ++
         mm ++ ":" ++ ss ++ " " ++ (if isRunning s then "●" else "○")).
Proof.
  intros R HR.
  assert (Hq : 0 <= R / 60) by (apply Z.div_pos; lia).
  assert (Hq' : R / 60 < 2 ^ 53)
    by (apply Z.div_lt_upper_bound; lia).
  pose proof (Z.mod_pos_bound R 60 ltac:(lia)) as Hm.
  assert (Em : JS.ToString (R / 60) = JS.String_ (R / 60))
    by (apply ToString_safe; lia).
  assert (Es : JS.ToString (R mod 60) = JS.String_ (R mod 60))
    by (apply ToString_safe; lia).
  exists (JS.padStart 2 "0" (JS.ToString (R / 60))),
         (JS.padStart 2 "0" (JS.ToString (R mod 60))).
  assert (Hstr : timeStr R =
                 JS.padStart 2 "0" (JS.ToString (R / 60)) ++ ":" ++
                 JS.padStart 2 "0" (JS.ToString (R mod 60))).
  { unfold timeStr, JS.floor_div. now rewrite Z.rem_mod_nonneg by lia. }
  split; [exact Hstr|]. split; [reflexivity|]. split; [reflexivity|].
  rewrite Em, Es.
  split; [apply decimal_value_padStart, decimal_value_String; lia|].
  split; [apply decimal_value_padStart, decimal_value_String; lia|].
  split; [rewrite padStart_2_length by apply String_nonempty; lia|].
  split; [apply padStart_2_small; lia|].
  split.
  - intros Hlt. apply padStart_2_small. split; [lia|].
    apply Z.div_lt_upper_bound; lia.
  - intros s Hs. cbn [updateStatusBar set_statusBar statusBar text].
    rewrite Hs, Hstr, Em, Es.
    rewrite !append_assoc. reflexivity.
Qed.

Lemma timeStr_format_witness :
  exists mm ss : string,
    timeStr 1505 = mm ++ ":" ++ ss /\
    decimal_value mm = Some 25 /\ decimal_value ss = Some 5 /\
    String.length mm = 2%nat /\ String.length ss = 2%nat.
Proof.
  destruct (timeStr_format 1505 ltac:(lia))
    as (mm & ss & H1 & _ & _ & H2 & H3 & _ & H4 & H5 & _).
  exists mm, ss. repeat split; try assumption. apply H5. lia.
Defined.

(** C8 as stated fails: a time left of 6e22 seconds, what [start] loads
    for a work duration of 1e21 minutes, is an integer [R >= 0] with
    [R div 60 = 1e21], and [String] prints 1e21 in exponent notation: the
    text before the colon is no numeral of any number, and it is not the
    twenty-two digits of [R div 60]. *)
Lemma timeStr_exponent_counterexample :
  let R := 6 * 10 ^ 22 in
  0 <= R /\
  JS.round53 R = R /\
  R / 60 = 10 ^ 21 /\ R mod 60 = 0 /\
  timeStr R = "1e+21" ++ ":" ++ "00" /\
  decimal_value "1e+21" = None /\
  "1e+21" <> JS.padStart 2 "0" "1000000000000000000000".
Proof.
  vm_compute. repeat split; discriminate.
Qed.

Example timeStr_samples :
  timeStr 0 = "00:00" /\ timeStr 65 = "01:05" /\ timeStr 1500 = "25:00" /\
  timeStr 5999 = "99:59" /\ timeStr 6000 = "100:00".
Proof. repeat split. Qed.

(** ** The first version of the extension *)

(** The script pads the seconds only, and counts one second for every
    callback, however late it comes. *)
Example legacy_timeText_samples :
  Legacy.timeText 65 = "1:05" /\ timeStr 65 = "01:05" /\
  Legacy.timeText 1500 = timeStr 1500.
Proof. repeat split. Qed.

Lemma legacy_onInterval_counting (g : Legacy.Script) :
  1 < Legacy.secondsLeft g ->
  Legacy.secondsLeft (Legacy.onInterval g) = Legacy.secondsLeft g - 1.
Proof.
  intros Hg. unfold Legacy.onInterval. cbn.
  destruct (Legacy.secondsLeft g - 1 <=? 0) eqn:E; [|reflexivity].
  apply Z.leb_le in E. lia.
Qed.

Lemma legacy_timerFinished_phase (g : Legacy.Script) :
  Legacy.isWorking (Legacy.timerFinished g) = Legacy.isWorking g /\
  Legacy.timer (Legacy.timerFinished g) = None.
Proof.
  unfold Legacy.timerFinished. cbn. destruct (Legacy.isWorking g); split;
    reflexivity.
Qed.

(** * Further properties of the class *)

(** ** Whatever the host does *)

Section Preservation.

Variable P : PomodoroTimer -> Prop.

Hypothesis P_start : forall config now s, P s -> P (start config now s).
Hypothesis P_stop : forall config s, P s -> P (stop config s).
Hypothesis P_reset : forall config s, P s -> P (reset config s).
Hypothesis P_tick : forall config now s, P s -> P (tick config now s).
Hypothesis P_showPanel : forall config s, P s -> P (showPanel config s).
Hypothesis P_broadcastUpdate :
  forall config s, P s -> P (broadcastUpdate config s).
Hypothesis P_onDidDispose : forall s, P s -> P (onDidDispose s).

Lemma exec_preserves e s : P s -> P (exec e s).
Proof.
  intros Hs. destruct e; cbn [exec]; auto.
  - unfold toggleTimer. destruct (isRunning s); auto.
  - unfold fire. destruct (in_dec Nat.eq_dec h (intervals s)); auto.
Qed.

Lemma handleWebviewMessage_preserves message config now s s' updates :
  P s -> handleWebviewMessage message config now s = Some (s', updates) ->
  P s'.
Proof.
  intros Hs. unfold handleWebviewMessage.
  destruct (String.eqb (msg_command message) "start");
    [intros [= <- _]; auto|].
  destruct (String.eqb (msg_command message) "stop");
    [intros [= <- _]; auto|].
  destruct (String.eqb (msg_command message) "reset");
    [intros [= <- _]; auto|].
  destruct (String.eqb (msg_command message) "updateSettings").
  - destruct (updateSettings (msg_settings message)); cbn;
      [intros [= <- _]; auto | discriminate].
  - intros [= <- _]. exact Hs.
Qed.

Lemma perform_preserves a s : P s -> P (perform a s).
Proof.
  intros Hs. destruct a as [e | message config now | affects config |];
    cbn [perform].
  - now apply exec_preserves.
  - destruct (handleWebviewMessage message config now s) as [[s' updates]|]
      eqn:Hm; [|exact Hs].
    eapply handleWebviewMessage_preserves; eauto.
  - unfold onDidChangeConfiguration. destruct affects; auto.
  - auto.
Qed.

Lemma perform_all_preserves acts s : P s -> P (perform_all acts s).
Proof.
  revert s. induction acts as [|a acts IH]; intros s Hs; [exact Hs|].
  apply IH. now apply perform_preserves.
Qed.

End Preservation.

(** *** The driver *)

Lemma broadcastUpdate_driver_inv config s :
  driver_inv s -> driver_inv (broadcastUpdate config s).
Proof. unfold driver_inv. now fields. Qed.

Lemma reset_driver_inv config s : driver_inv s -> driver_inv (reset config s).
Proof.
  intros Hd. unfold driver_inv.
  destruct (reset_fields config s) as (_ & _ & _ & -> & -> & ->).
  rewrite stop_no_driver by assumption.
  split; [reflexivity | split; [discriminate | congruence]].
Qed.

Lemma tick_driver_inv config now s :
  driver_inv s -> driver_inv (tick config now s).
Proof.
  intros Hd.
  destruct (Z.lt_ge_cases (elapsed now s) 1) as [Hlt | He];
    [now rewrite tick_below|].
  destruct (Z.lt_ge_cases 0 (timeLeft s - elapsed now s)) as [Hp | Hz].
  - unfold driver_inv.
    destruct (tick_counting config now s He Hp)
      as (_ & _ & -> & _ & _ & -> & -> & _).
    exact Hd.
  - rewrite tick_expiry by assumption.
    apply onTimerEnd_inv. exact Hd.
Qed.

Lemma showPanel_driver_inv config s :
  driver_inv s -> driver_inv (showPanel config s).
Proof.
  intros Hd. unfold driver_inv, showPanel, reveal. fields.
  destruct (panel s); cbn; exact Hd.
Qed.

Lemma perform_all_driver_inv acts s :
  driver_inv s -> driver_inv (perform_all acts s).
Proof.
  apply perform_all_preserves.
  - intros; now apply start_driver_inv.
  - intros; now apply stop_driver_inv.
  - intros; now apply reset_driver_inv.
  - intros; now apply tick_driver_inv.
  - intros; now apply showPanel_driver_inv.
  - intros; now apply broadcastUpdate_driver_inv.
  - intros s' Hs'. exact Hs'.
Qed.

Lemma activate_driver_inv now : driver_inv (activate now).
Proof. exact (proj1 (activate_inv now)). Qed.

(** X1.  Whatever commands, panel messages, setting changes and driver
    callbacks follow the activation, and whatever the settings hold, the
    handle kept in [this.timer] is the only active interval, there is an
    active interval exactly while the timer runs, and so there is never
    more than one. *)
Theorem single_driver :
  forall (now : Z) (acts : list Action),
    let s := perform_all acts (activate now) in
    driver_inv s /\
    List.length (intervals s) = (if isRunning s then 1 else 0)%nat.
Proof.
  intros now acts s.
  assert (Hd : driver_inv s)
    by (apply perform_all_driver_inv, activate_driver_inv).
  split; [exact Hd|]. destruct Hd as [Hi Hr]. rewrite Hi.
  destruct (timer s) as [h|] eqn:Ht.
  - assert (Hrun : isRunning s = true) by (apply Hr; discriminate).
    now rewrite Hrun.
  - destruct (isRunning s) eqn:Hrun; [|reflexivity].
    exfalso. now apply (proj1 Hr).
Qed.

(** *** The status bar *)

Lemma render_ext s t :
  timeLeft s = timeLeft t -> isRunning s = isRunning t ->
  isWorkSession s = isWorkSession t ->
  sessionsCompleted s = sessionsCompleted t ->
  statusBar (updateStatusBar s) = statusBar (updateStatusBar t).
Proof. intros H1 H2 H3 H4. cbn. now rewrite H1, H2, H3, H4. Qed.

Lemma rendered_after config t :
  rendered (broadcastUpdate config (updateStatusBar t)).
Proof.
  unfold rendered. rewrite statusBar_broadcastUpdate.
  apply render_ext; now fields.
Qed.

Lemma rendered_broadcastUpdate config s :
  rendered s -> rendered (broadcastUpdate config s).
Proof.
  unfold rendered. intros Hs. rewrite statusBar_broadcastUpdate, Hs.
  apply render_ext; now fields.
Qed.

Lemma rendered_start config now s : rendered s -> rendered (start config now s).
Proof.
  intros Hs. unfold start. destruct (isRunning s); [exact Hs|].
  apply rendered_after.
Qed.

Lemma rendered_stop config s : rendered (stop config s).
Proof. apply rendered_after. Qed.

Lemma rendered_reset config s : rendered (reset config s).
Proof. apply rendered_after. Qed.

Lemma rendered_onTimerEnd config s : rendered (onTimerEnd config s).
Proof. apply rendered_after. Qed.

Lemma rendered_tick config now s : rendered s -> rendered (tick config now s).
Proof.
  intros Hs. rewrite tick_unfold.
  destruct (1 <=? elapsed now s); [|exact Hs]. cbv zeta.
  destruct (timeLeft s - elapsed now s <=? 0);
    [apply rendered_onTimerEnd | apply rendered_after].
Qed.

Lemma rendered_showPanel config s :
  rendered s -> rendered (showPanel config s).
Proof.
  intros Hs. unfold showPanel. apply rendered_broadcastUpdate.
  unfold rendered, reveal in *. destruct (panel s); cbn; exact Hs.
Qed.

(** X2.  The status bar is never stale: after any run of commands, panel
    messages, setting changes and driver callbacks its text and tooltip
    are the rendering of the timer as it is then. *)
Theorem status_bar_in_sync :
  forall (now : Z) (acts : list Action),
    let s := perform_all acts (activate now) in
    text (statusBar s) =
      (if isWorkSession s then "🍅" else "☕") ++ " " ++
      (if isWorkSession s then "Work" else "Break") ++ " " ++
      timeStr (timeLeft s) ++ " " ++ (if isRunning s then "●" else "○") /\
    tooltip (statusBar s) =
      "Sessions completed: " ++ JS.String_ (sessionsCompleted s).
Proof.
  intros now acts s.
  assert (Hs : rendered s).
  { apply perform_all_preserves.
    - apply rendered_start.
    - intros; apply rendered_stop.
    - intros; apply rendered_reset.
    - apply rendered_tick.
    - apply rendered_showPanel.
    - apply rendered_broadcastUpdate.
    - intros t Ht. exact Ht.
    - reflexivity. }
  unfold rendered in Hs. rewrite Hs. split; reflexivity.
Qed.

(** *** The session count *)

Lemma sessions_inv_start config now s :
  sessions_inv s -> sessions_inv (start config now s).
Proof.
  intros Hs. destruct (isRunning s) eqn:Hrun; [now rewrite start_running|].
  unfold sessions_inv.
  destruct (start_fields config now s Hrun) as (_ & _ & _ & -> & -> & _).
  exact Hs.
Qed.

Lemma sessions_inv_stop config s :
  sessions_inv s -> sessions_inv (stop config s).
Proof.
  intros Hs. unfold sessions_inv.
  destruct (stop_fields config s) as (_ & _ & _ & -> & -> & _). exact Hs.
Qed.

Lemma sessions_inv_reset config s : sessions_inv (reset config s).
Proof.
  unfold sessions_inv.
  destruct (reset_fields config s) as (_ & -> & -> & _).
  split; [lia | discriminate].
Qed.

Lemma sessions_inv_tick config now s :
  sessions_inv s -> sessions_inv (tick config now s).
Proof.
  intros Hs.
  destruct (Z.lt_ge_cases (elapsed now s) 1) as [Hlt | He];
    [now rewrite tick_below|].
  destruct (Z.lt_ge_cases 0 (timeLeft s - elapsed now s)) as [Hp | Hz].
  - unfold sessions_inv.
    destruct (tick_counting config now s He Hp)
      as (_ & _ & _ & -> & -> & _).
    exact Hs.
  - rewrite tick_expiry by assumption.
    set (t := set_lastUpdateTime now _).
    destruct (onTimerEnd_fields config t) as (_ & _ & _ & _ & _ & Hw & Hb).
    change (isWorkSession t) with (isWorkSession s) in Hw, Hb.
    change (sessionsCompleted t) with (sessionsCompleted s) in Hw, Hb.
    destruct Hs as [H0 H1]. unfold sessions_inv.
    destruct (isWorkSession s) eqn:Hphase.
    + destruct (Hw eq_refl) as (-> & -> & _). split; lia.
    + destruct (Hb eq_refl) as (-> & -> & _).
      split; [exact H0 | discriminate].
Qed.

Lemma sessions_inv_showPanel config s :
  sessions_inv s -> sessions_inv (showPanel config s).
Proof.
  intros Hs. unfold sessions_inv, showPanel, reveal. fields.
  destruct (panel s); cbn; exact Hs.
Qed.

Lemma sessions_inv_broadcastUpdate config s :
  sessions_inv s -> sessions_inv (broadcastUpdate config s).
Proof. unfold sessions_inv. now fields. Qed.

Lemma perform_all_sessions_inv now acts :
  sessions_inv (perform_all acts (activate now)).
Proof.
  apply perform_all_preserves.
  - apply sessions_inv_start.
  - apply sessions_inv_stop.
  - intros; apply sessions_inv_reset.
  - apply sessions_inv_tick.
  - apply sessions_inv_showPanel.
  - apply sessions_inv_broadcastUpdate.
  - intros t Ht. exact Ht.
  - split; [cbn; lia | discriminate].
Qed.

(** X3.  After any run of commands, messages, setting changes and driver
    callbacks the count of completed sessions is not negative, and in the
    Break phase at least one session has been completed. *)
Theorem break_follows_session :
  forall (now : Z) (acts : list Action),
    let s := perform_all acts (activate now) in
    0 <= sessionsCompleted s /\
    (isWorkSession s = false -> 1 <= sessionsCompleted s).
Proof. intros now acts. apply perform_all_sessions_inv. Qed.





(** ** Pausing and resuming *)

(** X6.  Toggling a running timer with time left twice pauses and resumes
    it: the time left, the phase and the session count are kept, the timer
    runs again with the second clock reading as tick reference, and under
    the driver invariant one interval is active again.  The first toggle
    alone is [stop]. *)
Theorem toggle_twice_resumes :
  forall (config1 config2 : WorkspaceConfiguration) (now1 now2 : Z)
         (s : PomodoroTimer),
    isRunning s = true ->
    0 < timeLeft s ->
    let s1 := toggleTimer config1 now1 s in
    let s2 := toggleTimer config2 now2 s1 in
    s1 = stop config1 s /\
    timeLeft s2 = timeLeft s /\
    isWorkSession s2 = isWorkSession s /\
    sessionsCompleted s2 = sessionsCompleted s /\
    isRunning s2 = true /\
    lastUpdateTime s2 = now2 /\
    (driver_inv s -> List.length (intervals s2) = 1%nat).
Proof.
  intros config1 config2 now1 now2 s Hrun Hpos. cbv zeta.
  assert (H1 : toggleTimer config1 now1 s = stop config1 s)
    by (unfold toggleTimer; now rewrite Hrun).
  rewrite H1.
  destruct (stop_fields config1 s) as (Hr & Ht & Hl & Hw & Hc & _).
  assert (H2 : toggleTimer config2 now2 (stop config1 s)
               = start config2 now2 (stop config1 s))
    by (unfold toggleTimer; now rewrite Hr).
  rewrite H2.
  destruct (start_fields config2 now2 (stop config1 s) Hr)
    as (E1 & E2 & E3 & E4 & E5 & _ & E7 & _).
  rewrite E1, E2, E3, E4, E5, E7, Hl, Hw, Hc.
  assert (Hnz : (timeLeft s =? 0) = false) by (apply Z.eqb_neq; lia).
  rewrite Hnz. repeat split.
  intros Hd. now rewrite stop_no_driver.
Qed.

Lemma toggle_twice_resumes_witness :
  let s := tick defaults 10000 (start defaults 0 (activate 0)) in
  timeLeft s = 1490 /\
  timeLeft (toggleTimer defaults 99000 (toggleTimer defaults 20000 s)) = 1490.
Proof.
  intro s. split; [vm_compute; reflexivity|].
  assert (Hrun : isRunning s = true) by (vm_compute; reflexivity).
  assert (Hpos : 0 < timeLeft s) by (vm_compute; reflexivity).
  destruct (toggle_twice_resumes defaults defaults 20000 99000 s Hrun Hpos)
    as (_ & -> & _).
  vm_compute. reflexivity.
Defined.

(** ** The countdown against the clock *)







(** X8.  And it ends on time: for a timer with time left, the first tick
    at or after the deadline ends the phase, stopping the timer at zero
    with the phase flipped. *)
Theorem expiry_at_deadline :
  forall (config : WorkspaceConfiguration) (now : Z) (s : PomodoroTimer),
    0 < timeLeft s ->
    deadline s <= now ->
    let s' := tick config now s in
    isRunning s' = false /\
    timeLeft s' = 0 /\
    isWorkSession s' = negb (isWorkSession s) /\
    sessionsCompleted s' =
      (if isWorkSession s then sessionsCompleted s + 1
       else sessionsCompleted s).
Proof.
  intros config now s Hpos Hd. cbv zeta. unfold deadline in Hd.
  pose proof (elapsed_floor now s) as Hf.
  assert (He : 1 <= elapsed now s) by nia.
  assert (Hz : timeLeft s - elapsed now s <= 0) by nia.
  rewrite tick_expiry by assumption.
  set (t := set_lastUpdateTime now _).
  destruct (onTimerEnd_fields config t) as (Hr & _ & Hl & _ & _ & Hw & Hb).
  change (isWorkSession t) with (isWorkSession s) in Hw, Hb.
  change (sessionsCompleted t) with (sessionsCompleted s) in Hw, Hb.
  split; [exact Hr|]. split; [exact Hl|].
  destruct (isWorkSession s).
  - destruct (Hw eq_refl) as (-> & -> & _). split; reflexivity.
  - destruct (Hb eq_refl) as (-> & -> & _). split; reflexivity.
Qed.

Lemma expiry_at_deadline_witness :
  let s := tick defaults 1999 (start defaults 0 (activate 0)) in
  deadline s = 1500999 /\
  isWorkSession (tick defaults 1500999 s) = false /\
  sessionsCompleted (tick defaults 1500999 s) = 1.
Proof.
  intro s. split; [vm_compute; reflexivity|].
  assert (Hpos : 0 < timeLeft s) by (vm_compute; reflexivity).
  assert (Hd : deadline s <= 1500999) by (vm_compute; discriminate).
  destruct (expiry_at_deadline defaults 1500999 s Hpos Hd)
    as (_ & _ & -> & ->).
  split; vm_compute; reflexivity.
Defined.



(** ** What the settings and the notifications can reach *)

(** X10.  Notifications come from the end of a phase only: [start],
    [stop], [reset], the toggle, the panel command and every tick that does
    not bring the time left to zero or below leave the notifications as
    they were. *)
Theorem notifications_only_at_expiry :
  forall (config : WorkspaceConfiguration) (now : Z) (s : PomodoroTimer),
    trace (start config now s) = trace s /\
    trace (stop config s) = trace s /\
    trace (reset config s) = trace s /\
    trace (toggleTimer config now s) = trace s /\
    trace (showPanel config s) = trace s /\
    (trace (tick config now s) <> trace s ->
     1 <= elapsed now s /\ timeLeft s - elapsed now s <= 0).
Proof.
  intros config now s.
  assert (Hstart : trace (start config now s) = trace s).
  { destruct (isRunning s) eqn:Hrun; [now rewrite start_running|].
    apply (start_fields config now s Hrun). }
  assert (Hstop : trace (stop config s) = trace s)
    by apply (stop_fields config s).
  split; [exact Hstart|]. split; [exact Hstop|].
  split; [unfold reset; fields; exact Hstop|].
  split; [unfold toggleTimer; now destruct (isRunning s)|].
  split; [unfold showPanel, reveal; fields; now destruct (panel s)|].
  intros Hne.
  destruct (Z.lt_ge_cases (elapsed now s) 1) as [Hlt | He].
  { exfalso. apply Hne. now rewrite tick_below. }
  split; [exact He|].
  destruct (Z.lt_ge_cases 0 (timeLeft s - elapsed now s)) as [Hp | Hz];
    [|exact Hz].
  exfalso. apply Hne. apply (tick_counting config now s He Hp).
Qed.

Lemma notifications_only_at_expiry_witness :
  let s := start defaults 0 (activate 0) in
  1 <= elapsed 1500000 s /\ timeLeft s - elapsed 1500000 s <= 0.
Proof.
  intro s.
  apply (notifications_only_at_expiry defaults 1500000 s).
  vm_compute. discriminate.
Defined.

(** X11.  A change of settings never reaches a countdown under way: every
    tick, [stop] and [reset] yield the same timer, driver and status bar
    under any two settings (the settings only decide which notifications
    the end of a phase plays), and so does [start] unless it loads a new
    interval (stopped at zero). *)
Theorem settings_do_not_touch_countdown :
  forall (config1 config2 : WorkspaceConfiguration) (now : Z)
         (s : PomodoroTimer),
    let same (a b : PomodoroTimer) :=
      timeLeft a = timeLeft b /\ isRunning a = isRunning b /\
      isWorkSession a = isWorkSession b /\
      sessionsCompleted a = sessionsCompleted b /\
      timer a = timer b /\ intervals a = intervals b /\
      lastUpdateTime a = lastUpdateTime b /\ statusBar a = statusBar b in
    same (tick config1 now s) (tick config2 now s) /\
    same (stop config1 s) (stop config2 s) /\
    same (reset config1 s) (reset config2 s) /\
    (isRunning s = true \/ timeLeft s <> 0 ->
     same (start config1 now s) (start config2 now s)).
Proof.
  intros config1 config2 now s. cbv zeta.
  assert (Hstop : forall t,
    timeLeft (stop config1 t) = timeLeft (stop config2 t) /\
    isRunning (stop config1 t) = isRunning (stop config2 t) /\
    isWorkSession (stop config1 t) = isWorkSession (stop config2 t) /\
    sessionsCompleted (stop config1 t) = sessionsCompleted (stop config2 t) /\
    timer (stop config1 t) = timer (stop config2 t) /\
    intervals (stop config1 t) = intervals (stop config2 t) /\
    lastUpdateTime (stop config1 t) = lastUpdateTime (stop config2 t) /\
    statusBar (stop config1 t) = statusBar (stop config2 t)).
  { intros t. unfold stop. fields. repeat split. }
  split.
  { rewrite !tick_unfold. destruct (1 <=? elapsed now s); [|repeat split].
    cbv zeta. destruct (timeLeft s - elapsed now s <=? 0);
      [|fields; repeat split].
    set (t := set_lastUpdateTime now _).
    destruct (onTimerEnd_fields config1 t)
      as (A1 & A2 & A3 & A4 & A5 & A6 & A7).
    destruct (onTimerEnd_fields config2 t)
      as (B1 & B2 & B3 & B4 & B5 & B6 & B7).
    destruct (Hstop t) as (_ & _ & _ & _ & _ & Hi & _).
    assert (Hcore :
      isWorkSession (onTimerEnd config1 t) = isWorkSession (onTimerEnd config2 t)
      /\ sessionsCompleted (onTimerEnd config1 t)
         = sessionsCompleted (onTimerEnd config2 t)).
    { destruct (isWorkSession t) eqn:Hw.
      - destruct (A6 eq_refl) as (-> & -> & _).
        destruct (B6 eq_refl) as (-> & -> & _). now split.
      - destruct (A7 eq_refl) as (-> & -> & _).
        destruct (B7 eq_refl) as (-> & -> & _). now split. }
    destruct Hcore as [Hw Hc].
    rewrite A1, A2, A3, A4, A5, B1, B2, B3, B4, B5.
    repeat split; try assumption.
    pose proof (rendered_onTimerEnd config1 t) as R1.
    pose proof (rendered_onTimerEnd config2 t) as R2.
    unfold rendered in R1, R2. rewrite R1, R2.
    apply render_ext; congruence. }
  split; [apply Hstop|].
  split.
  { destruct (Hstop s) as (_ & Hr & _ & _ & Ht & Hi & Hl & _).
    unfold reset. fields. rewrite Hr.
    repeat split; assumption. }
  intros Hcase. unfold start.
  destruct (isRunning s) eqn:Hrun; [repeat split|].
  destruct Hcase as [Hf | Hnz]; [discriminate|].
  apply Z.eqb_neq in Hnz. rewrite Hnz. fields. repeat split.
Qed.

Lemma settings_do_not_touch_countdown_witness :
  let config :=
    {| cfg_workDuration := Some 50; cfg_breakDuration := Some 10;
       cfg_longBreakDuration := None; cfg_sessionsBeforeLongBreak := None;
       cfg_soundEnabled := None; cfg_notificationEnabled := None |} in
  let s := stop defaults (tick defaults 5000 (start defaults 0 (activate 0))) in
  timeLeft (start config 0 s) = timeLeft (start defaults 0 s).
Proof.
  intros config s.
  apply (settings_do_not_touch_countdown config defaults 0 s).
  right. vm_compute. discriminate.
Defined.

(** ** The panel *)

Lemma broadcastUpdate_quiet config s :
  (forall p, panel s = Some p -> visible p = false) ->
  broadcastUpdate config s = s.
Proof.
  intros Hq. unfold broadcastUpdate. destruct (panel s) as [p|]; [|reflexivity].
  now rewrite (Hq p eq_refl).
Qed.

Lemma panel_updateStatusBar s : panel (updateStatusBar s) = panel s.
Proof. reflexivity. Qed.

Lemma panel_quiet config t s :
  panel t = panel s ->
  (forall p, panel s = Some p -> visible p = false) ->
  panel (broadcastUpdate config (updateStatusBar t)) = panel s.
Proof.
  intros Hp Hq. rewrite broadcastUpdate_quiet; [exact Hp|].
  intros p. rewrite panel_updateStatusBar, Hp. apply Hq.
Qed.

Lemma panel_stop_quiet config s :
  (forall p, panel s = Some p -> visible p = false) ->
  panel (stop config s) = panel s.
Proof.
  intros Hq. unfold stop. apply panel_quiet; [|exact Hq].
  now destruct (timer s).
Qed.

(** X12.  Without a panel, or with a panel that is not visible, no timer
    operation posts anything: [start], [stop], [reset] and [tick] leave the
    panel and the messages sent to it exactly as they were. *)
Theorem hidden_panel_gets_nothing :
  forall (config : WorkspaceConfiguration) (now : Z) (s : PomodoroTimer),
    (forall p, panel s = Some p -> visible p = false) ->
    panel (start config now s) = panel s /\
    panel (stop config s) = panel s /\
    panel (reset config s) = panel s /\
    panel (tick config now s) = panel s.
Proof.
  intros config now s Hq.
  pose proof (panel_stop_quiet config s Hq) as Hstop.
  split.
  { unfold start. destruct (isRunning s); [reflexivity|].
    apply panel_quiet; [|exact Hq]. now destruct (timeLeft s =? 0). }
  split; [exact Hstop|].
  split.
  { unfold reset. apply panel_quiet; [exact Hstop | exact Hq]. }
  rewrite tick_unfold. destruct (1 <=? elapsed now s); [|reflexivity].
  cbv zeta. destruct (timeLeft s - elapsed now s <=? 0).
  - set (t := set_lastUpdateTime now _).
    assert (Ht : panel (stop config t) = panel s)
      by (apply (panel_stop_quiet config t); exact Hq).
    unfold onTimerEnd. apply panel_quiet; [|exact Hq].
    destruct (isWorkSession (stop config t)); cbn;
      unfold playNotification, beep;
      destruct (get (cfg_soundEnabled config) true),
               (get (cfg_notificationEnabled config) true); cbn; exact Ht.
  - apply panel_quiet; [reflexivity | exact Hq].
Qed.

Lemma hidden_panel_gets_nothing_witness :
  let s := onDidDispose (showPanel defaults (activate 0)) in
  panel (tick defaults 5000 (start defaults 0 s)) = None.
Proof.
  intro s.
  assert (Hq : forall p, panel s = Some p -> visible p = false)
    by (intros p Hp; discriminate Hp).
  destruct (hidden_panel_gets_nothing defaults 0 s Hq) as (Hs & _).
  assert (Hq' : forall p, panel (start defaults 0 s) = Some p ->
                         visible p = false)
    by (intros p Hp; rewrite Hs in Hp; discriminate Hp).
  destruct (hidden_panel_gets_nothing defaults 5000 _ Hq')
    as (_ & _ & _ & ->).
  exact Hs.
Defined.

Lemma last_posted_after config t p :
  panel t = Some p -> visible p = true ->
  last_posted (broadcastUpdate config (updateStatusBar t))
  = Some (panelState config t).
Proof.
  intros Hp Hv. unfold last_posted, broadcastUpdate.
  rewrite panel_updateStatusBar, Hp, Hv.
  cbn [panel set_panel posted].
  rewrite map_app; cbn [map]; rewrite last_last. reflexivity.
Qed.

Lemma last_posted_broadcastUpdate config t p :
  panel t = Some p -> visible p = true ->
  last_posted (broadcastUpdate config t) = Some (panelState config t) /\
  exists p', panel (broadcastUpdate config t) = Some p' /\ visible p' = true.
Proof.
  intros Hp Hv. unfold last_posted, broadcastUpdate. rewrite Hp, Hv.
  cbn [panel set_panel posted].
  rewrite map_app; cbn [map]; rewrite last_last. split; [reflexivity|]. eauto.
Qed.

Lemma panelState_ext config s t :
  timeLeft s = timeLeft t -> isRunning s = isRunning t ->
  isWorkSession s = isWorkSession t ->
  sessionsCompleted s = sessionsCompleted t ->
  panelState config s = panelState config t.
Proof. intros H1 H2 H3 H4. unfold panelState. now rewrite H1, H2, H3, H4. Qed.

Lemma posted_current config t p :
  panel t = Some p -> visible p = true ->
  let s' := broadcastUpdate config (updateStatusBar t) in
  last_posted s' = Some (panelState config s').
Proof.
  intros Hp Hv. cbv zeta. rewrite (last_posted_after config t p Hp Hv).
  f_equal. apply panelState_ext; now fields.
Qed.

Lemma stop_panel_visible config s p :
  panel s = Some p -> visible p = true ->
  exists p', panel (stop config s) = Some p' /\ visible p' = true.
Proof.
  intros Hp Hv. unfold stop.
  refine (proj2 (last_posted_broadcastUpdate config _ p _ Hv)).
  cbn. now destruct (timer s).
Qed.

(** X13.  With a visible panel, the message posted last by [start] on a
    stopped timer, by [stop], by [reset] and by a tick of at least one
    second carries the timer as the operation leaves it, with the settings
    read at that moment. *)
Theorem visible_panel_gets_state :
  forall (config : WorkspaceConfiguration) (now : Z) (s : PomodoroTimer)
         (p : WebviewPanel),
    panel s = Some p ->
    visible p = true ->
    (isRunning s = false ->
     last_posted (start config now s)
     = Some (panelState config (start config now s))) /\
    last_posted (stop config s) = Some (panelState config (stop config s)) /\
    last_posted (reset config s) = Some (panelState config (reset config s)) /\
    (1 <= elapsed now s ->
     last_posted (tick config now s)
     = Some (panelState config (tick config now s))).
Proof.
  intros config now s p Hp Hv.
  assert (Hstop : forall t, panel t = Some p ->
            last_posted (stop config t) = Some (panelState config (stop config t))).
  { intros t Ht. unfold stop. apply (posted_current config _ p); [|exact Hv].
    cbn. now destruct (timer t). }
  split.
  { intros Hrun. unfold start. rewrite Hrun.
    apply (posted_current config _ p); [|exact Hv].
    cbn. now destruct (timeLeft s =? 0). }
  split; [now apply Hstop|].
  split.
  { destruct (stop_panel_visible config s p Hp Hv) as (p' & Hp' & Hv').
    unfold reset. apply (posted_current config _ p'); [exact Hp' | exact Hv']. }
  intros He. rewrite tick_unfold. apply Z.leb_le in He. rewrite He. cbv zeta.
  destruct (timeLeft s - elapsed now s <=? 0).
  - set (t := set_lastUpdateTime now _).
    destruct (stop_panel_visible config t p Hp Hv) as (p' & Hp' & Hv').
    unfold onTimerEnd. apply (posted_current config _ p'); [|exact Hv'].
    destruct (isWorkSession (stop config t)); cbn;
      unfold playNotification, beep;
      destruct (get (cfg_soundEnabled config) true),
               (get (cfg_notificationEnabled config) true); cbn; exact Hp'.
  - apply (posted_current config _ p); [exact Hp | exact Hv].
Qed.

Lemma visible_panel_gets_state_witness :
  let s := showPanel defaults (activate 0) in
  option_map ps_timeLeft (last_posted (start defaults 0 s)) = Some 1500.
Proof.
  intro s.
  assert (Hp : panel s = Some {| visible := true;
                                 posted := [panelState defaults (activate 0)] |})
    by (vm_compute; reflexivity).
  destruct (visible_panel_gets_state defaults 0 s _ Hp eq_refl) as (H & _).
  rewrite (H eq_refl). vm_compute. reflexivity.
Defined.

Lemma showPanel_core config s :
  let s' := showPanel config s in
  timeLeft s' = timeLeft s /\ isRunning s' = isRunning s /\
  isWorkSession s' = isWorkSession s /\
  sessionsCompleted s' = sessionsCompleted s /\
  timer s' = timer s /\ intervals s' = intervals s /\
  lastUpdateTime s' = lastUpdateTime s /\ statusBar s' = statusBar s.
Proof.
  cbv zeta. unfold showPanel, reveal. fields.
  destruct (panel s); repeat split.
Qed.

(** X14.  [showPanel] never touches the countdown: the time left, the
    flags, the count, the driver and the status bar stay.  A panel that
    exists and is not visible is left as it is, with nothing posted: the
    reveal is only asked for.  A panel that exists and is visible keeps
    what was posted and gets the timer as it is appended.  Afterwards a
    panel exists in every case. *)
Theorem showPanel_reveals :
  forall (config : WorkspaceConfiguration) (s : PomodoroTimer),
    let s' := showPanel config s in
    timeLeft s' = timeLeft s /\ isRunning s' = isRunning s /\
    isWorkSession s' = isWorkSession s /\
    sessionsCompleted s' = sessionsCompleted s /\
    timer s' = timer s /\ intervals s' = intervals s /\
    lastUpdateTime s' = lastUpdateTime s /\ statusBar s' = statusBar s /\
    (forall p, panel s = Some p -> visible p = false -> panel s' = Some p) /\
    (forall p, panel s = Some p -> visible p = true ->
       panel s' =
       Some {| visible := true;
               posted := (posted p ++ [panelState config s'])%list |}) /\
    panel s' <> None.
Proof.
  intros config s. cbv zeta.
  destruct (showPanel_core config s) as (H1 & H2 & H3 & H4 & H5 & H6 & H7 & H8).
  repeat (split; [assumption|]).
  assert (Hst : panelState config (showPanel config s) = panelState config s)
    by (apply panelState_ext; assumption).
  rewrite Hst. unfold showPanel, reveal, broadcastUpdate.
  split; [|split].
  - intros p Hp Hv. rewrite Hp. cbn. rewrite Hp, Hv. exact Hp.
  - intros p Hp Hv. rewrite Hp. cbn. rewrite Hp, Hv. reflexivity.
  - destruct (panel s) as [p|] eqn:Hp; cbn; rewrite ?Hp; cbn.
    + destruct (visible p); cbn; rewrite ?Hp; discriminate.
    + discriminate.
Qed.

Lemma showPanel_reveals_witness :
  let s := showPanel defaults (activate 0) in
  option_map (fun p => List.length (posted p))
             (panel (showPanel defaults (start defaults 0 s))) = Some 3%nat.
Proof.
  intro s.
  assert (Hp : panel (start defaults 0 s) =
               Some {| visible := true;
                       posted := [panelState defaults (activate 0);
                                  panelState defaults (start defaults 0 s)] |})
    by (vm_compute; reflexivity).
  destruct (showPanel_reveals defaults (start defaults 0 s))
    as (_ & _ & _ & _ & _ & _ & _ & _ & _ & Hv & _).
  rewrite (Hv _ Hp eq_refl). reflexivity.
Defined.

(** ** Teardown *)

(** X15.  [deactivate] clears the interval of the timer: for a timer that
    obeys the driver invariant (every timer the extension can be in) no
    interval is active afterwards, so no callback of any handle changes
    anything any more; the fields of the timer itself are left as they
    were. *)
Theorem deactivate_silences :
  forall (s : PomodoroTimer),
    driver_inv s ->
    let s' := deactivate s in
    intervals s' = [] /\
    (forall h config now, fire h config now s' = s') /\
    timeLeft s' = timeLeft s /\ isRunning s' = isRunning s /\
    timer s' = timer s.
Proof.
  intros s [Hi _]. cbv zeta. unfold deactivate.
  assert (Hempty : intervals match timer s with
                             | Some h => clearInterval h s
                             | None => s
                             end = []).
  { destruct (timer s) as [h|]; cbn; rewrite Hi; [apply remove_single|].
    reflexivity. }
  split; [exact Hempty|]. split.
  - intros h config now. unfold fire. rewrite Hempty. reflexivity.
  - destruct (timer s) eqn:Ht; cbn; rewrite ?Ht; auto.
Qed.

Lemma deactivate_silences_witness :
  let s := start defaults 0 (activate 0) in
  intervals s = [0%nat] /\
  fire 0%nat defaults 5000 (deactivate s) = deactivate s.
Proof.
  intro s. split; [reflexivity|].
  apply (deactivate_silences s).
  split; [reflexivity|]. split; [discriminate | reflexivity].
Defined.

(** ** Messages of the panel *)

(** X16.  [handleWebviewMessage] throws exactly for an [updateSettings]
    message without a settings object.  Only the commands [start], [stop]
    and [reset] can change the timer, and they do what the methods do; only
    [updateSettings] asks for configuration updates; any other command is
    ignored. *)
Theorem handleWebviewMessage_dispatch :
  forall (message : Message) (config : WorkspaceConfiguration) (now : Z)
         (s : PomodoroTimer),
    let result := handleWebviewMessage message config now s in
    let command := msg_command message in
    (result = None <->
     command = "updateSettings" /\ msg_settings message = None) /\
    (forall s' updates, result = Some (s', updates) ->
       (command = "start" /\ s' = start config now s /\ updates = []) \/
       (command = "stop" /\ s' = stop config s /\ updates = []) \/
       (command = "reset" /\ s' = reset config s /\ updates = []) \/
       (command = "updateSettings" /\ s' = s /\
        updateSettings (msg_settings message) = Some updates) \/
       (command <> "start" /\ command <> "stop" /\ command <> "reset" /\
        command <> "updateSettings" /\ s' = s /\ updates = [])).
Proof.
  intros message config now s. cbv zeta. unfold handleWebviewMessage.
  destruct (String.eqb_spec (msg_command message) "start") as [E1|N1].
  { split; [split; [discriminate | intros [H _]; congruence]|].
    intros s' updates [= <- <-]. left. auto. }
  destruct (String.eqb_spec (msg_command message) "stop") as [E2|N2].
  { split; [split; [discriminate | intros [H _]; congruence]|].
    intros s' updates [= <- <-]. right. left. auto. }
  destruct (String.eqb_spec (msg_command message) "reset") as [E3|N3].
  { split; [split; [discriminate | intros [H _]; congruence]|].
    intros s' updates [= <- <-]. right. right. left. auto. }
  destruct (String.eqb_spec (msg_command message) "updateSettings")
    as [E4|N4].
  { destruct (msg_settings message) as [entries|]; cbn.
    - split; [split; [discriminate | intros [_ H]; discriminate]|].
      intros s' updates [= <- <-]. right. right. right. left. auto.
    - split; [split; auto|]. discriminate. }
  split; [split; [discriminate | intros [H _]; congruence]|].
  intros s' updates [= <- <-]. right. right. right. right. auto 6.
Qed.

Lemma skip_prefix (pat s : string) :
  JS.skip (String.length pat) (pat ++ s) = s.
Proof. induction pat as [|c pat IH]; [reflexivity | exact IH]. Qed.

Lemma prefix_append (pat s : string) : String.prefix pat (pat ++ s) = true.
Proof.
  induction pat as [|c pat IH]; cbn.
  - now destruct s.
  - destruct (ascii_dec c c); [exact IH | congruence].
Qed.

Lemma replace_unfold (pat rep s : string) :
  JS.replace pat rep s =
  if String.prefix pat s then rep ++ JS.skip (String.length pat) s
  else match s with
       | EmptyString => EmptyString
       | String c rest => String c (JS.replace pat rep rest)
       end.
Proof. now destruct s. Qed.

Lemma replace_prefix (pat rep s : string) :
  JS.replace pat rep (pat ++ s) = rep ++ s.
Proof. now rewrite replace_unfold, prefix_append, skip_prefix. Qed.

Lemma includes_unfold (pat s : string) :
  JS.includes pat s =
  String.prefix pat s ||
  match s with
  | EmptyString => false
  | String _ rest => JS.includes pat rest
  end.
Proof. now destruct s. Qed.

Lemma replace_absent (pat rep s : string) :
  JS.includes pat s = false -> JS.replace pat rep s = s.
Proof.
  induction s as [|c s IH]; rewrite includes_unfold, replace_unfold;
    intros H; apply orb_false_iff in H; destruct H as [Hp Hr]; rewrite Hp.
  - reflexivity.
  - now rewrite IH.
Qed.

(** X17.  The panel names a setting ["pomodoroTimer." ++ id];
    [updateSettings] asks for one global update per entry of the settings
    object, in the order of the entries, under the bare [id] and with the
    value as sent. *)
Theorem updateSettings_strips_section :
  forall (entries : list (string * Value)),
    updateSettings
      (Some (map (fun entry => ("pomodoroTimer." ++ fst entry, snd entry))
                 entries))
    = Some (map (fun entry =>
                   {| upd_key := fst entry; upd_value := snd entry;
                      upd_target := Global |})
                entries).
Proof.
  intros entries. unfold updateSettings. f_equal. rewrite map_map.
  apply map_ext. intros [id value]. cbn [fst snd].
  now rewrite (replace_prefix "pomodoroTimer." "" id).
Qed.

(** X18.  A key that does not hold ["pomodoroTimer."] is passed on as it
    is. *)
Theorem updateSettings_other_keys :
  forall (key : string) (value : Value),
    JS.includes "pomodoroTimer." key = false ->
    updateSettings (Some [(key, value)])
    = Some [{| upd_key := key; upd_value := value; upd_target := Global |}].
Proof.
  intros key value Habs. unfold updateSettings. cbn [map].
  now rewrite replace_absent.
Qed.

Lemma updateSettings_other_keys_witness :
  updateSettings (Some [("soundEnabled", VBool false)])
  = Some [{| upd_key := "soundEnabled"; upd_value := VBool false;
             upd_target := Global |}].
Proof.
  apply (updateSettings_other_keys "soundEnabled" (VBool false)).
  reflexivity.
Defined.

(** The section name is taken out once, wherever it stands first. *)
Example updateSettings_inner_occurrence :
  updateSettings
    (Some [("my.pomodoroTimer.pomodoroTimer.workDuration", VNumber 30)])
  = Some [{| upd_key := "my.pomodoroTimer.workDuration";
             upd_value := VNumber 30; upd_target := Global |}].
Proof. reflexivity. Qed.

(** * Further properties of the first version *)

Lemma legacy_seconds_two_digits z :
  0 <= z < 60 ->
  String.length ((if z <? 10 then "0" else "") ++ JS.String_ z) = 2%nat.
Proof.
  intros Hz.
  assert (Hall :
    forallb (fun k =>
               (String.length
                  ((if (Z.of_nat k <? 10)%Z then "0" else "")
                   ++ JS.String_ (Z.of_nat k)) =? 2)%nat)
            (seq 0 60) = true) by (vm_compute; reflexivity).
  rewrite forallb_forall in Hall.
  specialize (Hall (Z.to_nat z)). rewrite Z2Nat.id in Hall by lia.
  apply Nat.eqb_eq, Hall, in_seq. lia.
Qed.

(** X19.  The first version renders a time left [R >= 0] as
    [mm ++ ":" ++ ss] with [mm] the plain decimal numeral of [R / 60], not
    padded, and [ss] the numeral of [R mod 60] on exactly two
    characters. *)
Theorem legacy_timeText_format :
  forall R : Z,
    0 <= R ->
    exists mm ss : string,
      Legacy.timeText R = mm ++ ":" ++ ss /\
      mm = JS.String_ (R / 60) /\
      decimal_value mm = Some (R / 60) /\
      decimal_value ss = Some (R mod 60) /\
      String.length ss = 2%nat.
Proof.
  intros R HR.
  assert (Hq : 0 <= R / 60) by (apply Z.div_pos; lia).
  pose proof (Z.mod_pos_bound R 60 ltac:(lia)) as Hm.
  exists (JS.String_ (R / 60)),
         ((if R mod 60 <? 10 then "0" else "") ++ JS.String_ (R mod 60)).
  split.
  { unfold Legacy.timeText, JS.floor_div.
    now rewrite Z.rem_mod_nonneg by lia. }
  split; [reflexivity|].
  split; [now apply decimal_value_String|].
  split; [|now apply legacy_seconds_two_digits].
  destruct (R mod 60 <? 10).
  - apply decimal_value_zero_prefix, decimal_value_String. lia.
  - apply decimal_value_String. lia.
Qed.

Lemma legacy_timeText_format_witness :
  exists mm ss : string,
    Legacy.timeText 65 = mm ++ ":" ++ ss /\ mm = "1" /\
    decimal_value ss = Some 5 /\ String.length ss = 2%nat.
Proof.
  destruct (legacy_timeText_format 65 ltac:(lia))
    as (mm & ss & H1 & H2 & _ & H3 & H4).
  exists mm, ss. repeat split; assumption.
Defined.

Lemma legacy_onInterval_fields (g : Legacy.Script) :
  1 < Legacy.secondsLeft g ->
  let g' := Legacy.onInterval g in
  Legacy.secondsLeft g' = Legacy.secondsLeft g - 1 /\
  Legacy.timer g' = Legacy.timer g /\
  Legacy.isWorking g' = Legacy.isWorking g /\
  Legacy.pomodoroCount g' = Legacy.pomodoroCount g /\
  Legacy.intervals g' = Legacy.intervals g /\
  Legacy.shown g' = Legacy.shown g.
Proof.
  intros Hg. cbv zeta. unfold Legacy.onInterval. cbn.
  destruct (Legacy.secondsLeft g - 1 <=? 0) eqn:E;
    [apply Z.leb_le in E; lia|].
  repeat split.
Qed.

Lemma legacy_callbacks_counting (n : nat) (g : Legacy.Script) :
  Z.of_nat n < Legacy.secondsLeft g ->
  let g' := Legacy.callbacks n g in
  Legacy.secondsLeft g' = Legacy.secondsLeft g - Z.of_nat n /\
  Legacy.timer g' = Legacy.timer g /\
  Legacy.isWorking g' = Legacy.isWorking g /\
  Legacy.pomodoroCount g' = Legacy.pomodoroCount g /\
  Legacy.intervals g' = Legacy.intervals g /\
  Legacy.shown g' = Legacy.shown g.
Proof.
  cbv zeta. induction n as [|n IH]; intros Hn.
  - cbn. repeat split. lia.
  - destruct IH as (I1 & I2 & I3 & I4 & I5 & I6); [lia|].
    change (Legacy.callbacks (S n) g)
      with (Legacy.onInterval (Legacy.callbacks n g)).
    destruct (legacy_onInterval_fields (Legacy.callbacks n g))
      as (-> & -> & -> & -> & -> & ->); [lia|].
    repeat split; try assumption. lia.
Qed.

(** X20.  In the first version [n] callbacks take [n] seconds off as long
    as time is left after them, however much wall-clock time has passed,
    and change nothing else: the handle, the phase, the count, the active
    intervals and the messages stay. *)
Theorem legacy_countdown :
  forall (n : nat) (g : Legacy.Script),
    Z.of_nat n < Legacy.secondsLeft g ->
    let g' := Legacy.callbacks n g in
    Legacy.secondsLeft g' = Legacy.secondsLeft g - Z.of_nat n /\
    Legacy.timer g' = Legacy.timer g /\
    Legacy.isWorking g' = Legacy.isWorking g /\
    Legacy.pomodoroCount g' = Legacy.pomodoroCount g /\
    Legacy.intervals g' = Legacy.intervals g /\
    Legacy.shown g' = Legacy.shown g.
Proof. exact legacy_callbacks_counting. Qed.

Lemma legacy_countdown_witness :
  let g := Legacy.startWork 0%nat
             {| Legacy.timer := None; Legacy.secondsLeft := 0;
                Legacy.isWorking := false; Legacy.pomodoroCount := 0;
                Legacy.statusBar := ""; Legacy.intervals := [];
                Legacy.shown := [] |} in
  Legacy.secondsLeft (Legacy.callbacks 90 g) = 1500 - 90.
Proof.
  intro g.
  apply (legacy_countdown 90 g). vm_compute. reflexivity.
Defined.

(** X21.  The callback that brings the seconds to zero ends the interval:
    after exactly as many callbacks as there were seconds the handle is
    dropped and inactive, the seconds are at zero, the count has grown by
    one after work and not after a break, and the phase flag is what it
    was: the next phase waits for the answer to the question. *)
Theorem legacy_finish :
  forall (n : nat) (g : Legacy.Script),
    Legacy.secondsLeft g = Z.of_nat (S n) ->
    let g' := Legacy.callbacks (S n) g in
    Legacy.secondsLeft g' = 0 /\
    Legacy.timer g' = None /\
    (forall h, Legacy.timer g = Some h -> ~ In h (Legacy.intervals g')) /\
    Legacy.isWorking g' = Legacy.isWorking g /\
    Legacy.pomodoroCount g' =
      (if Legacy.isWorking g then Legacy.pomodoroCount g + 1
       else Legacy.pomodoroCount g).
Proof.
  intros n g Hg. cbv zeta.
  destruct (legacy_callbacks_counting n g) as (I1 & I2 & I3 & I4 & I5 & _);
    [lia|].
  change (Legacy.callbacks (S n) g)
    with (Legacy.onInterval (Legacy.callbacks n g)).
  remember (Legacy.callbacks n g) as g1 eqn:Eg1. clear Eg1.
  assert (H1 : Legacy.secondsLeft g1 = 1) by lia.
  unfold Legacy.onInterval. cbn. rewrite H1. cbn.
  unfold Legacy.timerFinished. cbn. rewrite I3.
  destruct (Legacy.isWorking g); cbn; rewrite ?H1, ?I2, ?I4, ?I5;
    (repeat split; intros h Hh; rewrite Hh; apply remove_In).
Qed.

Lemma legacy_finish_witness :
  let g := {| Legacy.timer := Some 3%nat; Legacy.secondsLeft := 2;
              Legacy.isWorking := true; Legacy.pomodoroCount := 6;
              Legacy.statusBar := ""; Legacy.intervals := [3%nat];
              Legacy.shown := [] |} in
  Legacy.pomodoroCount (Legacy.callbacks 2 g) = 7 /\
  Legacy.timer (Legacy.callbacks 2 g) = None.
Proof.
  intro g.
  destruct (legacy_finish 1 g eq_refl) as (_ & Ht & _ & _ & Hc).
  split; [rewrite Hc; reflexivity | exact Ht].
Defined.

(** X22.  In the first version stopping does not pause: whatever the
    seconds left and the phase, clicking a running timer and clicking
    again starts a full work interval, with the new handle as the only
    one added. *)
Theorem legacy_click_restarts :
  forall (g : Legacy.Script) (h h1 h2 : Handle),
    Legacy.timer g = Some h ->
    let g1 := Legacy.click h1 g in
    let g2 := Legacy.click h2 g1 in
    Legacy.timer g1 = None /\
    Legacy.secondsLeft g1 = Legacy.secondsLeft g /\
    Legacy.intervals g1 = remove Nat.eq_dec h (Legacy.intervals g) /\
    Legacy.timer g2 = Some h2 /\
    Legacy.secondsLeft g2 = Legacy.WORK_TIME /\
    Legacy.isWorking g2 = true /\
    Legacy.intervals g2 = (Legacy.intervals g1 ++ [h2])%list.
Proof.
  intros g h h1 h2 Ht. cbv zeta.
  assert (H1 : Legacy.click h1 g = Legacy.stopTimer g)
    by (unfold Legacy.click; now rewrite Ht).
  rewrite H1.
  assert (H2 : Legacy.click h2 (Legacy.stopTimer g)
               = Legacy.startWork h2 (Legacy.stopTimer g)) by reflexivity.
  rewrite H2. cbn. rewrite Ht. repeat split.
Qed.

Lemma legacy_click_restarts_witness :
  let g := {| Legacy.timer := Some 0%nat; Legacy.secondsLeft := 17;
              Legacy.isWorking := false; Legacy.pomodoroCount := 2;
              Legacy.statusBar := ""; Legacy.intervals := [0%nat];
              Legacy.shown := [] |} in
  Legacy.secondsLeft (Legacy.click 2%nat (Legacy.click 1%nat g)) = 1500.
Proof.
  intro g.
  exact (proj1 (proj2 (proj2 (proj2 (proj2
           (legacy_click_restarts g 0%nat 1%nat 2%nat eq_refl)))))).
Defined.

(** X23.  [startTimer] registers a new interval without clearing the one
    in [timer]: when the question of a finished work interval is answered
    with yes after a click has started work again, both intervals are
    active, a later stop clears the second only, and the first keeps
    calling back with no handle left to clear it. *)
Theorem legacy_interval_leak :
  forall (g : Legacy.Script) (h1 h2 h3 : Handle),
    Legacy.timer g = None ->
    h1 <> h2 ->
    let g1 := Legacy.click h1 g in
    let g2 := Legacy.answerWorkPrompt (Some "Да") h2 g1 in
    let g3 := Legacy.click h3 g2 in
    In h1 (Legacy.intervals g2) /\ In h2 (Legacy.intervals g2) /\
    Legacy.timer g3 = None /\
    In h1 (Legacy.intervals g3).
Proof.
  intros g h1 h2 h3 Ht Hne. cbv zeta.
  assert (H1 : Legacy.click h1 g = Legacy.startWork h1 g)
    by (unfold Legacy.click; now rewrite Ht).
  rewrite H1.
  assert (H2 : Legacy.answerWorkPrompt (Some "Да") h2
                 (Legacy.startWork h1 g)
               = Legacy.startBreak h2 (Legacy.startWork h1 g))
    by reflexivity.
  rewrite H2.
  assert (Hi : Legacy.intervals (Legacy.startBreak h2 (Legacy.startWork h1 g))
               = (Legacy.intervals g ++ [h1] ++ [h2])%list)
    by (cbn; now rewrite <- app_assoc).
  rewrite Hi.
  split; [apply in_or_app; right; now left|].
  split; [apply in_or_app; right; right; now left|].
  unfold Legacy.click. cbn. split; [reflexivity|].
  rewrite <- app_assoc. cbn.
  apply in_in_remove; [exact Hne|].
  apply in_or_app. right. now left.
Qed.

Lemma legacy_interval_leak_witness :
  let g := {| Legacy.timer := None; Legacy.secondsLeft := 0;
              Legacy.isWorking := true; Legacy.pomodoroCount := 1;
              Legacy.statusBar := ""; Legacy.intervals := [];
              Legacy.shown := [] |} in
  let g3 := Legacy.click 9%nat
              (Legacy.answerWorkPrompt (Some "Да") 2%nat
                 (Legacy.click 1%nat g)) in
  Legacy.timer g3 = None /\ In 1%nat (Legacy.intervals g3).
Proof.
  intro g.
  assert (Hne : 1%nat <> 2%nat) by discriminate.
  destruct (legacy_interval_leak g 1%nat 2%nat 9%nat eq_refl Hne)
    as (_ & _ & H3 & H4).
  split; [exact H3 | exact H4].
Defined.
